(** * WTSL Stats dashboard: record store, filter, view derivation, comparison

    A shallow embedding of [tennis_dashboard.py].  The Dash widgets, the
    Plotly figures and the CSS are left out; what is embedded is the data
    every callback computes before it hands it to a widget:

    - the load of [data.json] into the frame [df] (lines 20-34),
    - [talent_to_stars] (lines 90-100),
    - the filter of [update_player_list] (lines 193-218),
    - [render_tabs] (lines 379-455) and [compare_players] (lines 463-492).

    Strings are byte strings holding the UTF-8 encoding of the Python text:
    equality, concatenation, repetition and the code-point order of [str]
    are the byte-wise ones on that encoding; where the code looks at
    characters the bytes are decoded into code points.  Numbers of the data
    set are integers ([Z]); floating-point cells are outside the model.
    The libraries [re] (behind [str.contains]) and [urllib.parse] are
    parameters of the callbacks that call them. *)

From Stdlib Require Import ZArith String Ascii Bool.
From stdpp Require Import base option list gmap strings sorting.

Local Open Scope string_scope.
Local Open Scope Z_scope.

(** ** Python values and exceptions *)

Module Py.

(** A cell of the frame, or a default handed to [Series.get]: an integer, a
    text, or the missing-value marker NaN. *)
Inductive value : Type :=
| VInt (n : Z)
| VStr (s : string)
| VNaN.

(** [ReError] is [re.error]. *)
Inductive exn : Type :=
| KeyError (key : string)
| IndexError
| ReError.

(** Outcome of a callback: a value or a raised exception. *)
Inductive result (A : Type) : Type :=
| Ok (a : A)
| Raise (e : exn).
Arguments Ok {A} a.
Arguments Raise {A} e.

Definition bind {A B} (r : result A) (k : A -> result B) : result B :=
  match r with
  | Ok a => k a
  | Raise e => Raise e
  end.

Definition rmap {A B} (f : A -> B) (r : result A) : result B :=
  bind r (fun a => Ok (f a)).

Fixpoint mapM {A B} (f : A -> result B) (l : list A) : result (list B) :=
  match l with
  | [] => Ok []
  | x :: l' => bind (f x) (fun y => bind (mapM f l') (fun ys => Ok (y :: ys)))
  end.

(** Truth value of an optional text ([if search:], [if not a]): [None] and
    the empty text are false. *)
Definition truthy (o : option string) : option string :=
  match o with
  | Some s => if String.eqb s "" then None else Some s
  | None => None
  end.

(** Truth value of an optional number ([if min_speed:]): [None] and [0] are
    false. *)
Definition truthy_num (o : option Z) : option Z :=
  match o with
  | Some n => if n =? 0 then None else Some n
  | None => None
  end.

(** [s * n]: [n] copies of [s], the empty text when [n <= 0]. *)
Definition str_mul (s : string) (n : Z) : string :=
  String.concat "" (replicate (Z.to_nat n) s).

(** The code points of a text, from its UTF-8 encoding.  A byte that is
    not part of a well-formed sequence is given the code point [56320 + b]
    (such a byte string is the encoding of no text). *)
Definition is_cont (b : ascii) : bool :=
  let n := N_of_ascii b in ((128 <=? n) && (n <? 192))%N.

Definition cont (b : ascii) : N := (N_of_ascii b - 128)%N.

Fixpoint code_points (l : list ascii) : list N :=
  match l with
  | [] => []
  | b1 :: l1 =>
      let n1 := N_of_ascii b1 in
      if (n1 <? 128)%N then n1 :: code_points l1
      else if (n1 <? 192)%N then (56320 + n1)%N :: code_points l1
      else if (n1 <? 224)%N then
        match l1 with
        | b2 :: l2 =>
            if is_cont b2
            then ((n1 - 192) * 64 + cont b2)%N :: code_points l2
            else (56320 + n1)%N :: code_points l1
        | _ => (56320 + n1)%N :: code_points l1
        end
      else if (n1 <? 240)%N then
        match l1 with
        | b2 :: b3 :: l3 =>
            if is_cont b2 && is_cont b3
            then ((n1 - 224) * 4096 + cont b2 * 64 + cont b3)%N :: code_points l3
            else (56320 + n1)%N :: code_points l1
        | _ => (56320 + n1)%N :: code_points l1
        end
      else if (n1 <? 248)%N then
        match l1 with
        | b2 :: b3 :: b4 :: l4 =>
            if is_cont b2 && is_cont b3 && is_cont b4
            then ((n1 - 240) * 262144 + cont b2 * 4096 + cont b3 * 64 + cont b4)%N
                 :: code_points l4
            else (56320 + n1)%N :: code_points l1
        | _ => (56320 + n1)%N :: code_points l1
        end
      else (56320 + n1)%N :: code_points l1
  end.

Definition decode (s : string) : list N := code_points (list_ascii_of_string s).

Definition is_ascii (s : string) : bool :=
  forallb (fun c => (N_of_ascii c <? 128)%N) (list_ascii_of_string s).

(** The white space [int] skips around an ASCII literal. *)
Definition is_space (c : ascii) : bool :=
  let n := N_of_ascii c in
  ((9 <=? n) && (n <=? 13) || (n =? 32))%N.

(** The white space characters above the ASCII range. *)
Definition is_unicode_space (n : N) : bool :=
  ((n =? 133) || (n =? 160) || (n =? 5760) || (8192 <=? n) && (n <=? 8202) ||
   (n =? 8232) || (n =? 8233) || (n =? 8239) || (n =? 8287) || (n =? 12288))%N.

(** The code points of the digits zero of the decimal number systems of
    Unicode 14; the nine code points after each are its digits 1 to 9. *)
Definition decimal_zeros : list N :=
  [48; 1632; 1776; 1984; 2406; 2534; 2662; 2790; 2918; 3046; 3174; 3302;
   3430; 3558; 3664; 3792; 3872; 4160; 4240; 6112; 6160; 6470; 6608; 6784;
   6800; 6992; 7088; 7232; 7248; 42528; 43216; 43264; 43472; 43504; 43600;
   44016; 65296; 66720; 68912; 69734; 69872; 69942; 70096; 70384; 70736;
   70864; 71248; 71360; 71472; 71904; 72016; 72784; 73040; 73120; 92768;
   92864; 93008; 120782; 120792; 120802; 120812; 120822; 123200; 123632;
   125264; 130032]%N.

(** The value of a decimal digit. *)
Definition decimal (n : N) : option N :=
  (fun z => n - z)%N <$>
  List.find (fun z => (z <=? n) && (n <? z + 10))%N decimal_zeros.

(** What [int] makes of one character of a text that is not ASCII before
    it reads the literal: characters below 127 are kept, white space
    becomes a blank, a decimal digit becomes the ASCII digit of its value;
    any other character makes the literal invalid. *)
Definition to_ascii_digit (n : N) : option ascii :=
  if (n <? 127)%N then Some (ascii_of_N n)
  else if is_unicode_space n then Some " "%char
  else (fun v => ascii_of_N (48 + v)) <$> decimal n.

Fixpoint to_ascii_digits (l : list N) : option (list ascii) :=
  match l with
  | [] => Some []
  | n :: l' =>
      match to_ascii_digit n, to_ascii_digits l' with
      | Some c, Some r => Some (c :: r)
      | _, _ => None
      end
  end.

Definition is_digit (c : ascii) : bool :=
  let n := N_of_ascii c in ((48 <=? n) && (n <=? 57))%N.

Definition digit_val (c : ascii) : Z := Z.of_N (N_of_ascii c) - 48.

Fixpoint lstrip_space (l : list ascii) : list ascii :=
  match l with
  | c :: l' => if is_space c then lstrip_space l' else l
  | [] => []
  end.

Definition strip (l : list ascii) : list ascii :=
  reverse (lstrip_space (reverse (lstrip_space l))).

(** The largest number of digits [int] reads ([sys.int_max_str_digits]). *)
Definition max_str_digits : N := 4300.

(** Decimal digits with single underscores between digits, as [int]
    accepts them; [seen] tells that the previous character was a digit and
    [count] is the number of digits read. *)
Fixpoint digits (acc : Z) (count : N) (seen : bool) (l : list ascii) : option Z :=
  match l with
  | [] => if seen && (count <=? max_str_digits)%N then Some acc else None
  | c :: l' =>
      if is_digit c then digits (10 * acc + digit_val c) (count + 1) true l'
      else if Ascii.eqb c "_" then (if seen then digits acc count false l' else None)
      else None
  end.

(** [int(s)] for a text: the characters of a text that is not ASCII are
    first brought to ASCII, surrounding white space is stripped, a sign may
    precede the digits.  [None] stands for the [ValueError]. *)
Definition int_of_str (s : string) : option Z :=
  match (if is_ascii s then Some (list_ascii_of_string s)
         else to_ascii_digits (decode s)) with
  | Some l =>
      match strip l with
      | c :: l' =>
          if Ascii.eqb c "-" then Z.opp <$> digits 0 0 false l'
          else if Ascii.eqb c "+" then digits 0 0 false l'
          else digits 0 0 false (c :: l')
      | [] => None
      end
  | None => None
  end.

(** [int(val)]; [None] stands for the exception the caller swallows
    ([int] of NaN raises [ValueError] as well). *)
Definition int (val : value) : option Z :=
  match val with
  | VInt n => Some n
  | VStr s => int_of_str s
  | VNaN => None
  end.

Definition to_lower (c : ascii) : ascii :=
  let n := N_of_ascii c in
  if ((65 <=? n) && (n <=? 90))%N then ascii_of_N (n + 32) else c.

Definition to_upper (c : ascii) : ascii :=
  let n := N_of_ascii c in
  if ((97 <=? n) && (n <=? 122))%N then ascii_of_N (n - 32) else c.

Definition lower (s : string) : string :=
  string_of_list_ascii (to_lower <$> list_ascii_of_string s).

(** [s.capitalize()] on ASCII text: first character upper case, the rest
    lower case. *)
Definition capitalize (s : string) : string :=
  match s with
  | EmptyString => EmptyString
  | String c s' => String (to_upper c) (lower s')
  end.

(** [s.lstrip(c)] for a one-character set. *)
Fixpoint lstrip (c : ascii) (s : string) : string :=
  match s with
  | String d s' => if Ascii.eqb d c then lstrip c s' else s
  | EmptyString => EmptyString
  end.

End Py.
Import Py.

(** ** HELPERS (lines 90-100) *)

Definition talent_to_stars (val : value) (max_one : bool) : string :=
  let v := match Py.int val with Some n => n | None => 0 end in
  let v := if max_one then Z.min v 1 else if 2 <? v then 2 else v in
  if v =? 0 then "—" else str_mul "⭐" v.


(** ** DATA LOADING (lines 20-34) *)

(** One object of [data.json], and one row of the frame.  The columns the
    program reads unconditionally at start-up are fields: [name] (a text,
    the key of the store), [style] and [hand] ([None] is a missing cell).
    Every other key of the object is a numeric attribute. *)
Module Row.
Record Player : Type := {
  name : string;
  style : option string;
  hand : option string;
  attrs : gmap string Z
}.
End Row.
Export Row.

(** A frame: the numeric columns it has, and its rows in order.  A row has
    a cell in every column of the frame; the cell is NaN when the object the
    row was built from lacks the key. *)
Record DataFrame : Type := {
  columns : gset string;
  rows : list Player
}.

Module Pandas.

(** [pd.DataFrame(data)]: the columns are the keys of all the objects. *)
Definition DataFrame_of (data : list Player) : DataFrame :=
  {| columns := ⋃ ((fun p => dom (attrs p)) <$> data); rows := data |}.

(** [drop_duplicates(subset=["name"])], [keep="first"]: a row is dropped
    when an earlier row has its name. *)
Fixpoint drop_seen (seen : gset string) (l : list Player) : list Player :=
  match l with
  | [] => []
  | p :: l' =>
      if bool_decide (name p ∈ seen) then drop_seen seen l'
      else p :: drop_seen ({[name p]} ∪ seen) l'
  end.

Definition drop_duplicates (d : DataFrame) : DataFrame :=
  {| columns := columns d; rows := drop_seen ∅ (rows d) |}.

Definition fillna (dflt : string) (c : option string) : string :=
  match c with Some s => s | None => dflt end.

(** [Series.replace(table)]: a cell equal to a key becomes that key's
    value, any other cell stays. *)
Definition replace (table : gmap string string) (c : string) : string :=
  match table !! c with Some s => s | None => c end.

Definition fixed_columns : list string := ["name"; "style"; "hand"].

Definition has_column (d : DataFrame) (k : string) : bool :=
  bool_decide (k ∈ fixed_columns) || bool_decide (k ∈ columns d).

Definition opt_cell (c : option string) : value :=
  match c with Some s => VStr s | None => VNaN end.

(** The cell of row [p] in column [k]. *)
Definition cell (p : Player) (k : string) : value :=
  if String.eqb k "name" then VStr (name p)
  else if String.eqb k "style" then opt_cell (style p)
  else if String.eqb k "hand" then opt_cell (hand p)
  else match attrs p !! k with Some n => VInt n | None => VNaN end.

(** [p.get(k, dflt)] on a row [p] of frame [d]: the default is returned
    only when [k] is not a label of the row, that is not a column of the
    frame; a missing cell of an existing column is returned as it is. *)
Definition get (d : DataFrame) (p : Player) (k : string) (dflt : value) : value :=
  if has_column d k then cell p k else dflt.

(** [p[k]] on a row [p] of frame [d]. *)
Definition getitem (d : DataFrame) (p : Player) (k : string) : result value :=
  if has_column d k then Ok (cell p k) else Raise (KeyError k).

(** [d[d["name"] == n]]. *)
Definition name_is (n : string) (d : DataFrame) : list Player :=
  filter (fun p => name p = n) (rows d).

(** [.iloc[0]]. *)
Definition iloc0 (l : list Player) : result Player :=
  match l with
  | p :: _ => Ok p
  | [] => Raise IndexError
  end.

Definition name_le (p q : Player) : Prop :=
  String.leb (name p) (name q) = true.

#[global] Instance name_le_dec : RelDecision name_le.
Proof. intros p q; unfold name_le; apply _. Defined.

(** [sort_values("name")]: the rows in ascending order of their names
    (texts compare by code point). *)
Definition sort_values (l : list Player) : list Player :=
  merge_sort name_le l.

End Pandas.
Import Pandas.

Definition HAND_REPLACE_ITEMS : list (string * string) :=
  [ ("L", "Left"); ("R", "Right");
    ("U", "Left");
    ("LeftHanded", "Left"); ("RightHanded", "Right");
    ("left", "Left"); ("right", "Right");
    ("unknown", "Left");
    ("Unknown", "Left");
    ("Diestro", "Right");
    ("Zurdo", "Left") ].

Definition HAND_REPLACE : gmap string string := list_to_map HAND_REPLACE_ITEMS.

(** Line 25 on one cell: [fillna("Unknown")], then [replace]. *)
Definition normalize_hand (c : option string) : string :=
  replace HAND_REPLACE (fillna "Unknown" c).

Definition normalize_row (p : Player) : Player :=
  {| name := name p; style := style p;
     hand := Some (normalize_hand (hand p)); attrs := attrs p |}.

(** Lines 24-34: the frame [df] built from the loaded objects. *)
Definition load (data : list Player) : DataFrame :=
  let d := drop_duplicates (DataFrame_of data) in
  {| columns := columns d; rows := normalize_row <$> rows d |}.

(** ** LABELS and GROUPS (lines 38-87) *)

Definition LABELS : gmap string string := list_to_map
  [ ("name", "Player Name"); ("style", "Play Style");
    ("height", "Height (cm)"); ("weight", "Weight (kg)");
    ("hand", "Dominant Hand");
    ("fh_power", "Forehand Power");
    ("fh_consistency", "Forehand Consistency");
    ("fh_precision", "Forehand Precision");
    ("bh_power", "Backhand Power");
    ("bh_consistency", "Backhand Consistency");
    ("bh_precision", "Backhand Precision");
    ("fh_volley", "Forehand Volley"); ("bh_volley", "Backhand Volley");
    ("smash", "Smash"); ("net_presence", "Net Presence");
    ("srv_power", "Service Power");
    ("srv_consistency", "Service Consistency");
    ("srv_precision", "Service Precision");
    ("focus", "Focus"); ("counter", "Counter Skill"); ("lob", "Lob Skill");
    ("dropshot", "Dropshot Skill"); ("topspin", "Topspin Skill");
    ("speed", "Speed"); ("stamina", "Stamina"); ("tonicity", "Muscle Tone");
    ("tal_slice_serve", "Slice Serve");
    ("tal_topspin_serve", "Topspin Serve");
    ("tal_twist_serve", "Twist Serve");
    ("tal_slice_mastery", "Slice Mastery");
    ("tal_slider", "Slider");
    ("tal_boom_server", "Boom Boom Server");
    ("tal_ball_feeling", "Ball Feeling");
    ("tal_spinny_bh", "Spinny Backhand");
    ("tal_flat_bh", "Flat Backhand") ].

Definition GROUPS : gmap string (list string) := list_to_map
  [ ("Rally", ["fh_power"; "fh_consistency"; "fh_precision";
               "bh_power"; "bh_consistency"; "bh_precision"]);
    ("Volley", ["fh_volley"; "bh_volley"; "smash"; "net_presence"]);
    ("Serve", ["srv_power"; "srv_consistency"; "srv_precision"]);
    ("Special", ["focus"; "counter"; "lob"; "dropshot"; "topspin"]);
    ("Physique", ["speed"; "stamina"; "tonicity"]);
    ("Talents", ["tal_slice_serve"; "tal_topspin_serve"; "tal_twist_serve";
                 "tal_slice_mastery"; "tal_slider"; "tal_boom_server";
                 "tal_ball_feeling"; "tal_spinny_bh"; "tal_flat_bh"]) ].

(** [table[k]] on a dict. *)
Definition dict_getitem {V} (table : gmap string V) (k : string) : result V :=
  match table !! k with
  | Some v => Ok v
  | None => Raise (KeyError k)
  end.

(** ** Regular expressions *)

Module Re.

(** [re.compile(pat, re.IGNORECASE)] as the callback uses it: [None] when
    it raises [re.error], otherwise what [regex.search(x) is not None]
    answers on a text [x]. *)
Definition engine : Type := string -> option (string -> bool).

(** What this development knows of [re]: the patterns made of literal
    ASCII characters and dots. *)
Inductive atom : Type :=
| Lit (c : ascii)
| AnyChar.

(** The characters that open a construct of the pattern language.  (The
    closing brace and bracket stand for themselves where no construct is
    open.) *)
Definition special : list ascii :=
  ["."; "^"; "$"; "*"; "+"; "?"; "{"; "["; "\"; "|"; "("; ")"]%char.

Definition is_special (c : ascii) : bool := bool_decide (c ∈ special).

Definition is_ascii_char (c : ascii) : bool := (N_of_ascii c <? 128)%N.

Fixpoint skip_digits (s : string) : string :=
  match s with
  | String c s' => if is_digit c then skip_digits s' else s
  | EmptyString => EmptyString
  end.

Definition starts_with (c : ascii) (s : string) : bool :=
  match s with
  | String d _ => Ascii.eqb d c
  | EmptyString => false
  end.

Definition tail (s : string) : string :=
  match s with
  | String _ s' => s'
  | EmptyString => EmptyString
  end.

(** What follows an opening brace makes it a repetition: digits, then
    maybe a comma and digits, then a closing brace, the closing brace not
    coming first. *)
Definition repeat_shape (rest : string) : bool :=
  if starts_with "}" rest then false
  else
    let r := skip_digits rest in
    if starts_with "," r then starts_with "}" (skip_digits (tail r))
    else starts_with "}" r.

(** The patterns of the fragment: ASCII, the dot the only construct; an
    opening brace that starts no repetition is a literal.  [None]
    elsewhere: nothing is said of such a pattern. *)
Fixpoint compile (pat : string) : option (list atom) :=
  match pat with
  | EmptyString => Some []
  | String c pat' =>
      if negb (is_ascii_char c) then None
      else if Ascii.eqb c "." then cons AnyChar <$> compile pat'
      else if Ascii.eqb c "{" then
        if repeat_shape pat' then None else cons (Lit c) <$> compile pat'
      else if is_special c then None
      else cons (Lit c) <$> compile pat'
  end.

Definition lower_cp (d : N) : N :=
  if ((65 <=? d) && (d <=? 90))%N then (d + 32)%N else d.

(** One pattern item against one character, ignoring case: a literal
    matches the characters with its lower case, and i, k and s also match
    the dotted capital I and the dotless i, the Kelvin sign, and the long
    s; the dot matches every character but the newline. *)
Definition atom_matches (a : atom) (d : N) : bool :=
  match a with
  | Lit c =>
      let lc := N_of_ascii (to_lower c) in
      ((lower_cp d =? lc) ||
       (lc =? 105) && ((d =? 304) || (d =? 305)) ||
       (lc =? 107) && (d =? 8490) ||
       (lc =? 115) && (d =? 383))%N
  | AnyChar => negb (d =? 10)%N
  end.

(** The pattern matches at the start of the text. *)
Fixpoint match_here (re : list atom) (s : list N) : bool :=
  match re, s with
  | [], _ => true
  | a :: re', d :: s' => atom_matches a d && match_here re' s'
  | _ :: _, [] => false
  end.

(** The pattern matches at some position of the text. *)
Fixpoint search (re : list atom) (s : list N) : bool :=
  match_here re s ||
  match s with
  | _ :: s' => search re s'
  | [] => false
  end.

Definition is_open_paren (c : ascii) : bool := Ascii.eqb c "(".

(** Patterns [re] is known to reject: ASCII, with an opening parenthesis
    and no other special character (the group is never closed). *)
Definition rejected (pat : string) : bool :=
  let l := list_ascii_of_string pat in
  forallb (fun c => is_ascii_char c && (is_open_paren c || negb (is_special c))) l &&
  existsb is_open_paren l.

(** An engine agrees with what is known of [re]. *)
Definition agrees (re : engine) : Prop :=
  (forall pat atoms, compile pat = Some atoms ->
     exists f, re pat = Some f /\ forall s, f s = search atoms (decode s)) /\
  (forall pat, rejected pat = true -> re pat = None).

(** The engine that has the patterns of the fragment and rejects every
    other pattern: one of the engines that agree, used in the examples. *)
Definition sample_engine : engine :=
  fun pat =>
    match compile pat with
    | Some atoms => Some (fun s => search atoms (decode s))
    | None => None
    end.

End Re.

(** ** CALLBACKS: the player list (lines 193-218) *)

(** Rows of [l] selected by a boolean mask. *)
Fixpoint select (mask : list bool) (l : list Player) : list Player :=
  match mask, l with
  | b :: mask', p :: l' => if b then p :: select mask' l' else select mask' l'
  | _, _ => []
  end.

(** [players["name"].str.contains(search, case=False, na=False)]: the
    pattern is compiled once, then searched in every name. *)
Definition str_contains (re : Re.engine) (pat : string) (l : list Player)
  : result (list bool) :=
  match re pat with
  | Some found => Ok ((fun p => found (name p)) <$> l)
  | None => Raise ReError
  end.

Definition speed_ge (m : Z) (p : Player) : Prop :=
  match attrs p !! "speed" with
  | Some v => m <= v
  | None => False
  end.

#[global] Instance speed_ge_dec m p : Decision (speed_ge m p).
Proof. unfold speed_ge; destruct (attrs p !! "speed"); apply _. Defined.

(** Lines 194-203: the frame [players] after the four filters and the
    sort. *)
Definition filter_players (re : Re.engine) (df : DataFrame)
    (search style hand : option string) (min_speed : option Z)
  : result (list Player) :=
  let players := rows df in
  bind (match truthy search with
        | Some pat => rmap (fun mask => select mask players) (str_contains re pat players)
        | None => Ok players
        end) (fun players =>
  let players :=
    match truthy style with
    | Some s => filter (fun p => Row.style p = Some s) players
    | None => players
    end in
  let players :=
    match truthy hand with
    | Some h => filter (fun p => Row.hand p = Some h) players
    | None => players
    end in
  bind (match truthy_num min_speed with
        | Some m =>
            if has_column df "speed" then Ok (filter (speed_ge m) players)
            else Raise (KeyError "speed")
        | None => Ok players
        end) (fun players =>
  Ok (sort_values players))).

(** What the callback hands to the side bar: the "No players found."
    message, or one link per row, labelled and addressed by the row's
    name. *)
Inductive PlayerList : Type :=
| NoPlayersFound
| PlayerLinks (names : list string).

Definition update_player_list (re : Re.engine) (df : DataFrame)
    (search style hand : option string) (min_speed : option Z)
  : result PlayerList :=
  rmap (fun players =>
          match players with
          | [] => NoPlayersFound
          | _ :: _ => PlayerLinks (name <$> players)
          end)
       (filter_players re df search style hand min_speed).

(** ** CALLBACKS: the main content area (lines 379-455) *)

(** The local [radar_attrs] of [render_tabs] and [compare_players]. *)
Definition radar_attrs : list string :=
  ["fh_power"; "bh_power"; "srv_power"; "speed"; "stamina"; "focus"].

Definition group_tabs : list string :=
  ["rally"; "volley"; "serve"; "special"; "physique"].

(** The cells interpolated in the overview paragraph. *)
Record Summary : Type := {
  play_style : value;
  dominant_hand : value;
  height : value;
  weight : value
}.

(** What [render_tabs] returns, without the mark-up. *)
Inductive View : Type :=
| SelectPlayer
| NotFound (player_name : string)
| Overview (who : value) (summary : Summary) (radar_df : list (string * value))
| GroupTable (who : value) (section : string) (table : list (string * value))
| TalentsTable (who : value) (table : list (string * string))
| CompareForm (options : list string) (a_value : value)
| InvalidTab.

Definition overview (df : DataFrame) (p : Player) : result View :=
  let radar_vals := (fun a => get df p a (VInt 0)) <$> radar_attrs in
  bind (mapM (dict_getitem LABELS) radar_attrs) (fun labels =>
  bind (getitem df p "name") (fun who =>
  bind (getitem df p "style") (fun s =>
  bind (getitem df p "hand") (fun h =>
  bind (getitem df p "height") (fun ht =>
  bind (getitem df p "weight") (fun wt =>
  Ok (Overview who
        {| play_style := s; dominant_hand := h; height := ht; weight := wt |}
        (zip labels radar_vals)))))))).

Definition group_table (df : DataFrame) (p : Player) (tab : string) : result View :=
  let section := capitalize tab in
  bind (dict_getitem GROUPS section) (fun keys =>
  bind (mapM (fun key =>
                rmap (fun l => (l, get df p key (VStr "—")))
                     (dict_getitem LABELS key)) keys) (fun table =>
  bind (getitem df p "name") (fun who =>
  Ok (GroupTable who section table)))).

Definition talents (df : DataFrame) (p : Player) : result View :=
  bind (dict_getitem GROUPS "Talents") (fun keys =>
  bind (mapM (fun key =>
                let val := talent_to_stars (get df p key (VInt 0)) false in
                rmap (fun l => (l, val)) (dict_getitem LABELS key)) keys) (fun table =>
  bind (getitem df p "name") (fun who =>
  Ok (TalentsTable who table)))).

Definition compare_form (df : DataFrame) (p : Player) : result View :=
  bind (getitem df p "name") (fun who =>
  Ok (CompareForm (name <$> rows df) who)).

Section Urllib.

(** [urllib.parse.parse_qs] and [urllib.parse.unquote_plus] are taken as
    they come. *)
Variable parse_qs : string -> gmap string (list string).
Variable unquote_plus : string -> string.

(** Lines 380-384. *)
Definition selected_player (search : option string) : option string :=
  match truthy search with
  | Some s =>
      match parse_qs (lstrip "?" s) !! "player" with
      | Some (v :: _) => Some (unquote_plus v)
      | _ => None
      end
  | None => None
  end.

Definition render_tabs (df : DataFrame) (tab search : option string) : result View :=
  match truthy (selected_player search) with
  | None => Ok SelectPlayer
  | Some player_name =>
      match name_is player_name df with
      | [] => Ok (NotFound player_name)
      | p :: _ =>
          match tab with
          | Some t =>
              if String.eqb t "overview" then overview df p
              else if bool_decide (t ∈ group_tabs) then group_table df p t
              else if String.eqb t "talents" then talents df p
              else if String.eqb t "compare" then compare_form df p
              else Ok InvalidTab
          | None => Ok InvalidTab
          end
      end
  end.

End Urllib.

(** ** CALLBACKS: the comparison (lines 463-492) *)

(** A row of the frames charted by [px.line_polar]. *)
Record PolarRow : Type := {
  Attribute : string;
  Value : value;
  Player_tag : string
}.

(** The frame [pd.DataFrame({"Attribute": ..., "Value": ..., "Player": tag})]
    of lines 469 and 470. *)
Definition polar_frame (df : DataFrame) (p : Player) (tag : string)
  : result (list PolarRow) :=
  bind (mapM (dict_getitem LABELS) radar_attrs) (fun labels =>
  let vals := (fun a => get df p a (VInt 0)) <$> radar_attrs in
  Ok ((fun lv => {| Attribute := lv.1; Value := lv.2; Player_tag := tag |})
        <$> zip labels vals)).

(** The charted frame [comp_df] is [df1] followed by [df2]; the table has
    a header naming the two players and one row per radar attribute. *)
Record Comparison : Type := {
  df1 : list PolarRow;
  df2 : list PolarRow;
  header : string * string;
  table_rows : list (string * value * value)
}.

Definition comp_df (c : Comparison) : list PolarRow := df1 c ++ df2 c.

Inductive CompareView : Type :=
| SelectTwoPlayers
| Compared (c : Comparison).

Definition compare_players (df : DataFrame) (a b : option string) : result CompareView :=
  match truthy a, truthy b with
  | Some a, Some b =>
      bind (iloc0 (name_is a df)) (fun p1 =>
      bind (iloc0 (name_is b df)) (fun p2 =>
      bind (polar_frame df p1 a) (fun df1 =>
      bind (polar_frame df p2 b) (fun df2 =>
      bind (mapM (fun attr =>
                    rmap (fun l => (l, get df p1 attr (VStr "—"),
                                       get df p2 attr (VStr "—")))
                         (dict_getitem LABELS attr)) radar_attrs) (fun table =>
      Ok (Compared {| df1 := df1; df2 := df2; header := (a, b);
                      table_rows := table |}))))))
  | _, _ => Ok SelectTwoPlayers
  end.

(** Exchange of the two players in a comparison. *)
Definition swap_comparison (c : Comparison) : Comparison :=
  {| df1 := df2 c; df2 := df1 c;
     header := ((header c).2, (header c).1);
     table_rows := (fun r => (r.1.1, r.2, r.1.2)) <$> table_rows c |}.

Definition swap_view (v : CompareView) : CompareView :=
  match v with
  | SelectTwoPlayers => SelectTwoPlayers
  | Compared c => Compared (swap_comparison c)
  end.

(** The labels of [radar_attrs], in order. *)
Definition radar_labels : list string :=
  ["Forehand Power"; "Backhand Power"; "Service Power"; "Speed"; "Stamina";
   "Focus"].

(** The tab identifiers [render_tabs] has a branch for. *)
Definition known_tabs : list string :=
  ["overview"; "rally"; "volley"; "serve"; "special"; "physique"; "talents";
   "compare"].

(** ** A small data set used in the examples *)

Definition ana : Player :=
  {| name := "Ana"; style := Some "Aggressive"; hand := Some "R";
     attrs := list_to_map [("speed", 70); ("fh_power", 50); ("srv_power", 60);
                           ("height", 170); ("weight", 60)] |}.

Definition bo : Player :=
  {| name := "Bo"; style := Some "Defensive"; hand := None;
     attrs := list_to_map [("speed", 40); ("height", 180); ("weight", 75)] |}.

Definition ana_again : Player :=
  {| name := "Ana"; style := Some "Defensive"; hand := Some "Zurdo";
     attrs := list_to_map [("speed", 10); ("stamina", 5)] |}.

Definition sample_data : list Player := [bo; ana; ana_again].

Definition sample_df : DataFrame := load sample_data.

(** A stand-in for [parse_qs] on queries of the shape [player=NAME], with
    nothing to decode. *)
Definition plain_parse_qs (s : string) : gmap string (list string) :=
  if String.prefix "player=" s
  then {[ "player" := [String.substring 7 (String.length s - 7) s] ]}
  else ∅.

Definition plain_unquote (s : string) : string := s.

(** ** The constraints of the filter, as the specification words them *)

Definition str_le (s t : string) : Prop := String.leb s t = true.

(** [name] contains [text] as a substring when case is ignored. *)
Definition contains_ci (text s : string) : Prop :=
  exists pre post : string, lower s = pre +:+ lower text +:+ post.

(** The search text is present and the pattern it denotes is found in the
    name. *)
Definition name_matches (re : Re.engine) (search : option string) (p : Player)
  : Prop :=
  match truthy search with
  | Some pat =>
      match re pat with
      | Some found => found (name p) = true
      | None => False
      end
  | None => True
  end.

Definition style_matches (style : option string) (p : Player) : Prop :=
  match truthy style with
  | Some s => Row.style p = Some s
  | None => True
  end.

Definition hand_matches (hand : option string) (p : Player) : Prop :=
  match truthy hand with
  | Some h => Row.hand p = Some h
  | None => True
  end.

(** A minimum speed that is present and not 0 asks for a speed at least as
    large; 0 asks for nothing. *)
Definition speed_matches (min_speed : option Z) (p : Player) : Prop :=
  match min_speed with
  | Some m => m = 0 \/ speed_ge m p
  | None => True
  end.

Definition keeps (re : Re.engine) (search style hand : option string)
    (min_speed : option Z) (p : Player) : Prop :=
  name_matches re search p /\ style_matches style p /\
  hand_matches hand p /\ speed_matches min_speed p.

#[global] Instance name_matches_dec re search p :
  Decision (name_matches re search p).
Proof.
  unfold name_matches. destruct (truthy search); [|apply _].
  destruct (re _); apply _.
Defined.

#[global] Instance style_matches_dec style p : Decision (style_matches style p).
Proof. unfold style_matches. destruct (truthy style); apply _. Defined.

#[global] Instance hand_matches_dec hand p : Decision (hand_matches hand p).
Proof. unfold hand_matches. destruct (truthy hand); apply _. Defined.

#[global] Instance speed_matches_dec min_speed p : Decision (speed_matches min_speed p).
Proof. unfold speed_matches. destruct min_speed; apply _. Defined.

#[global] Instance keeps_dec re search style hand min_speed p :
  Decision (keeps re search style hand min_speed p).
Proof. unfold keeps. apply _. Defined.

(** The search text, when present, is a pattern that compiles. *)
Definition search_compiles (re : Re.engine) (search : option string) : Prop :=
  match truthy search with
  | Some pat => is_Some (re pat)
  | None => True
  end.

(** The frame has the column the speed filter reads, when that filter is
    active. *)
Definition speed_readable (df : DataFrame) (min_speed : option Z) : Prop :=
  match truthy_num min_speed with
  | Some _ => has_column df "speed" = true
  | None => True
  end.


(** ** LAYOUT: the options of the two drop-downs (lines 127 and 135) *)

#[global] Instance str_le_dec : RelDecision str_le.
Proof. intros s t; unfold str_le; apply _. Defined.

(** [Series.dropna()] on a column of texts. *)
Definition dropna (l : list (option string)) : list string :=
  omap (fun c => c) l.

(** [Series.unique()]: each value once, in order of first appearance. *)
Fixpoint unique (seen : gset string) (l : list string) : list string :=
  match l with
  | [] => []
  | s :: l' =>
      if bool_decide (s ∈ seen) then unique seen l'
      else s :: unique ({[s]} ∪ seen) l'
  end.

(** [sorted(...)] on texts. *)
Definition sorted (l : list string) : list string := merge_sort str_le l.

(** [sorted(df[col].dropna().unique())] for a column of texts. *)
Definition column_options (col : Player -> option string) (df : DataFrame)
  : list string :=
  sorted (unique ∅ (dropna (col <$> rows df))).

Definition style_options (df : DataFrame) : list string :=
  column_options Row.style df.

Definition hand_options (df : DataFrame) : list string :=
  column_options Row.hand df.

(** The keys of the Talents group, in order. *)
Definition talent_keys : list string :=
  ["tal_slice_serve"; "tal_topspin_serve"; "tal_twist_serve";
   "tal_slice_mastery"; "tal_slider"; "tal_boom_server";
   "tal_ball_feeling"; "tal_spinny_bh"; "tal_flat_bh"].

(** The comparison of the rows [p1] and [p2], tagged [a'] and [b']. *)
Definition comparison_of (df : DataFrame) (a' b' : string) (p1 p2 : Player)
  : Comparison :=
  {| df1 := zip_with (fun l k => {| Attribute := l;
                                   Value := get df p1 k (VInt 0);
                                   Player_tag := a' |})
              radar_labels radar_attrs;
     df2 := zip_with (fun l k => {| Attribute := l;
                                   Value := get df p2 k (VInt 0);
                                   Player_tag := b' |})
              radar_labels radar_attrs;
     header := (a', b');
     table_rows := zip_with (fun l k => (l, get df p1 k (VStr "—"),
                                            get df p2 k (VStr "—")))
                     radar_labels radar_attrs |}.

(** A pattern item with its literal in lower case. *)
Definition lower_atom (a : Re.atom) : Re.atom :=
  match a with
  | Re.Lit c => Re.Lit (to_lower c)
  | Re.AnyChar => Re.AnyChar
  end.

(** The text begins with a character whose code is between [lo] and
    [hi]. *)
Definition starts_within (lo hi : N) (s : string) : Prop :=
  match s with
  | String c _ => (lo <= N_of_ascii c <= hi)%N
  | EmptyString => False
  end.

(** The text begins with an upper-case, a lower-case ASCII letter. *)
Definition starts_upper : string -> Prop := starts_within 65 90.
Definition starts_lower : string -> Prop := starts_within 97 122.

(** * Properties *)

(** ** The talent transform *)

Lemma str_mul_nonpos (s : string) (n : Z) : n <= 0 -> str_mul s n = "".
Proof.
  intros Hn. unfold str_mul.
  replace (Z.to_nat n) with 0%nat by lia. reflexivity.
Qed.

Lemma clamp_unset_cases (v : Z) :
  let w := if 2 <? v then 2 else v in
  (v < 0 /\ w = v) \/ (v = 0 /\ w = 0) \/ (v = 1 /\ w = 1) \/ (2 <= v /\ w = 2).
Proof.
  simpl. destruct (Z.ltb_spec 2 v); lia.
Qed.

Example int_of_str_samples :
  int_of_str " +1_2 " = Some 12 /\ int_of_str "-007" = Some (-7) /\
  int_of_str "1__2" = None /\ int_of_str "_1" = None /\
  int_of_str "1.5" = None /\ int_of_str "" = None /\ int_of_str "bad" = None.
Proof. repeat split; reflexivity. Qed.

(** C3: the five sample values of the talent transform: 0 gives the dash,
    1 gives one star, 5 is clamped to two stars, the text "bad" is coerced
    to 0 and gives the dash, and 5 with [max_one] set gives one star. *)
Theorem talent_to_stars_samples :
  talent_to_stars (VInt 0) false = "—" /\
  talent_to_stars (VInt 1) false = "⭐" /\
  talent_to_stars (VInt 5) false = "⭐⭐" /\
  talent_to_stars (VStr "bad") false = "—" /\
  talent_to_stars (VInt 5) true = "⭐".
Proof. repeat split; reflexivity. Qed.

(** C10: with [max_one] unset, a strictly negative integer gives the empty
    text, which is neither the dash nor a run of stars; the clamp only
    bounds from above, and among the integers exactly 0 gives the dash. *)
Theorem talent_to_stars_negative (v : Z) :
  v < 0 ->
  talent_to_stars (VInt v) false = "" /\
  talent_to_stars (VInt v) false <> "—" /\
  (forall n : nat, n <> 0%nat -> talent_to_stars (VInt v) false <> str_mul "⭐" (Z.of_nat n)) /\
  (forall w : Z, talent_to_stars (VInt w) false = "—" <-> w = 0).
Proof.
  intros Hv.
  assert (Hneg : forall u, u < 0 -> talent_to_stars (VInt u) false = "").
  { intros u Hu. unfold talent_to_stars; simpl.
    destruct (Z.ltb_spec 2 u); [lia|].
    destruct (Z.eqb_spec u 0); [lia|].
    apply str_mul_nonpos; lia. }
  rewrite (Hneg v Hv). split; [reflexivity|]. split; [discriminate|]. split.
  - intros [|n] Hn; [congruence|].
    rewrite Nat2Z.inj_succ. unfold str_mul.
    rewrite Z2Nat.inj_succ by lia. cbn [replicate String.concat].
    destruct (replicate _ _); discriminate.
  - intros w. unfold talent_to_stars; simpl.
    destruct (clamp_unset_cases w) as [[H ->]|[[-> ->]|[[-> ->]|[H ->]]]].
    + destruct (Z.eqb_spec w 0); [lia|].
      rewrite str_mul_nonpos by lia. split; [discriminate|lia].
    + split; reflexivity.
    + split; [discriminate|lia].
    + split; [discriminate|lia].
Qed.

Lemma talent_to_stars_negative_witness :
  talent_to_stars (VInt (-3)) false = "".
Proof.
  apply (talent_to_stars_negative (-3)). lia.
Defined.

(** ** The hand column *)

Lemma HAND_REPLACE_dom :
  dom HAND_REPLACE = list_to_set (HAND_REPLACE_ITEMS.*1).
Proof. unfold HAND_REPLACE. apply dom_list_to_map_L. Qed.

(** No replacement value is itself a key: replacing in one pass or pair by
    pair gives the same cells. *)
Lemma HAND_REPLACE_values_final :
  Forall (fun v => HAND_REPLACE !! v = None) (HAND_REPLACE_ITEMS.*2).
Proof. repeat constructor. Qed.

(** C2: every spelling listed in the replacement table is normalized to
    "Left" or "Right"; a missing hand and the code "U" are normalized to
    "Left". *)
Theorem normalize_hand_table :
  (forall x : string, x ∈ dom HAND_REPLACE ->
     normalize_hand (Some x) = "Left" \/ normalize_hand (Some x) = "Right") /\
  normalize_hand None = "Left" /\
  normalize_hand (Some "U") = "Left".
Proof.
  split; [|split; reflexivity].
  intros x Hx. rewrite HAND_REPLACE_dom in Hx.
  apply elem_of_list_to_set in Hx. simpl in Hx.
  repeat (apply elem_of_cons in Hx as [->|Hx]; [vm_compute; auto|]).
  inversion Hx.
Qed.

Lemma normalize_hand_table_witness :
  normalize_hand (Some "Diestro") = "Left" \/ normalize_hand (Some "Diestro") = "Right".
Proof.
  apply (proj1 normalize_hand_table "Diestro").
  rewrite HAND_REPLACE_dom. apply elem_of_list_to_set. simpl.
  rewrite !elem_of_cons. auto 20.
Defined.

(** ** The record store *)

Section DropDuplicates.

Implicit Types (seen : gset string) (l : list Player) (n : string).

Lemma drop_seen_elem seen l p :
  p ∈ drop_seen seen l -> p ∈ l /\ name p ∉ seen.
Proof.
  revert seen. induction l as [|q l IH]; intros seen; simpl.
  - intros H; inversion H.
  - case_bool_decide as Hq.
    + intros H. apply IH in H as [? ?]. split; [by right|done].
    + intros H. apply elem_of_cons in H as [Heq|H].
      * subst p. split; [by left|done].
      * apply IH in H as [? Hn]. split; [by right|].
        intros Hs. apply Hn, elem_of_union. by right.
Qed.

Lemma drop_seen_names_fresh seen l n :
  n ∈ name <$> drop_seen seen l -> n ∉ seen.
Proof.
  intros (p & -> & Hp)%list_elem_of_fmap. by apply drop_seen_elem in Hp as [_ ?].
Qed.

Lemma drop_seen_NoDup seen l : NoDup (name <$> drop_seen seen l).
Proof.
  revert seen. induction l as [|q l IH]; intros seen; simpl.
  - constructor.
  - case_bool_decide; [apply IH|].
    rewrite fmap_cons. constructor; [|apply IH].
    intros Hin%drop_seen_names_fresh.
    apply Hin, elem_of_union. left. by apply elem_of_singleton.
Qed.

Lemma drop_seen_sublist seen l : drop_seen seen l `sublist_of` l.
Proof.
  revert seen. induction l as [|q l IH]; intros seen; simpl.
  - constructor.
  - case_bool_decide; [apply sublist_cons, IH|apply sublist_skip, IH].
Qed.

(** The row kept for a name is the first one carrying it, unless the name
    was seen before. *)
Lemma drop_seen_first seen l n :
  head (filter (fun p => name p = n) (drop_seen seen l)) =
  if bool_decide (n ∈ seen) then None
  else head (filter (fun p => name p = n) l).
Proof.
  revert seen. induction l as [|q l IH]; intros seen; simpl.
  - by case_bool_decide.
  - destruct (decide (name q = n)) as [Heq|Hne].
    + rewrite (filter_cons_True _ q l) by done.
      case_bool_decide as Hq.
      * rewrite IH. subst n. by rewrite bool_decide_eq_true_2 by done.
      * rewrite filter_cons_True by done. simpl.
        subst n. by rewrite bool_decide_eq_false_2 by done.
    + rewrite (filter_cons_False _ q l) by done.
      case_bool_decide as Hq.
      * apply IH.
      * rewrite filter_cons_False by done. rewrite IH.
        destruct (decide (n ∈ seen)) as [Hn|Hn].
        -- rewrite !bool_decide_eq_true_2; [done|done|].
           apply elem_of_union. by right.
        -- rewrite !bool_decide_eq_false_2; [done|done|].
           intros [Hs%elem_of_singleton|Hs]%elem_of_union; [|done].
           by apply Hne.
Qed.

End DropDuplicates.

Lemma head_filter_normalize_row (l : list Player) (n : string) :
  head (filter (fun p => name p = n) (normalize_row <$> l)) =
  normalize_row <$> head (filter (fun p => name p = n) l).
Proof.
  induction l as [|q l IH]; [done|].
  rewrite fmap_cons.
  destruct (decide (name q = n)) as [Heq|Hne].
  - rewrite !filter_cons_True by done. done.
  - rewrite !filter_cons_False by done. done.
Qed.

Lemma names_normalize_row (l : list Player) :
  name <$> (normalize_row <$> l) = name <$> l.
Proof. rewrite <- list_fmap_compose. done. Qed.

(** C5: the store has one row per distinct name of the input: its names
    are pairwise distinct and are the names of the input; the row of a
    name is the first input record of that name (with its hand
    normalized); and the rows keep the order they have in the input. *)
Theorem load_one_row_per_name (data : list Player) :
  NoDup (name <$> rows (load data)) /\
  (forall n : string, n ∈ name <$> rows (load data) <-> n ∈ name <$> data) /\
  (forall n : string,
     filter (fun p => name p = n) (rows (load data)) =
     option_list (normalize_row <$> head (filter (fun p => name p = n) data))) /\
  rows (load data) `sublist_of` (normalize_row <$> data).
Proof.
  assert (Hfirst : forall n : string,
     head (filter (fun p => name p = n) (rows (load data))) =
     normalize_row <$> head (filter (fun p => name p = n) data)).
  { intros n. unfold load; simpl.
    rewrite head_filter_normalize_row, drop_seen_first.
    by rewrite bool_decide_eq_false_2 by apply not_elem_of_empty. }
  assert (Hnd : NoDup (name <$> rows (load data))).
  { unfold load; simpl. rewrite names_normalize_row. apply drop_seen_NoDup. }
  split; [done|]. split; [|split].
  - intros n. unfold load; simpl. rewrite names_normalize_row. split.
    + intros (p & -> & Hp)%list_elem_of_fmap.
      apply drop_seen_elem in Hp as [Hp _]. apply list_elem_of_fmap; eauto.
    + intros (p & -> & Hp)%list_elem_of_fmap.
      pose proof (drop_seen_first ∅ data (name p)) as H.
      rewrite bool_decide_eq_false_2 in H by apply not_elem_of_empty.
      destruct (filter (fun q => name q = name p) data) as [|q k] eqn:Hf.
      { assert (p ∈ filter (fun q => name q = name p) data) as Hin
          by (apply list_elem_of_filter; done).
        rewrite Hf in Hin. inversion Hin. }
      destruct (filter (fun q => name q = name p) (drop_seen ∅ data))
        as [|q' k'] eqn:Hf'; [done|].
      simpl in H. injection H as ->.
      assert (q ∈ filter (fun q => name q = name p) (drop_seen ∅ data)) as Hin
        by (rewrite Hf'; left).
      apply list_elem_of_filter in Hin as [Hq Hin].
      apply list_elem_of_fmap. exists q. done.
  - intros n. specialize (Hfirst n).
    destruct (filter (fun p => name p = n) (rows (load data))) as [|p k] eqn:Hf.
    + simpl in Hfirst. rewrite <- Hfirst. done.
    + simpl in Hfirst. rewrite <- Hfirst. simpl.
      destruct k as [|p' k]; [done|]. exfalso.
      assert (Hsub : (p :: p' :: k) `sublist_of` rows (load data))
        by (rewrite <- Hf; apply sublist_filter).
      assert (Hp : name p = n /\ name p' = n).
      { split.
        - assert (p ∈ filter (fun p => name p = n) (rows (load data))) as Hin
            by (rewrite Hf; left).
          by apply list_elem_of_filter in Hin as [? _].
        - assert (p' ∈ filter (fun p => name p = n) (rows (load data))) as Hin
            by (rewrite Hf; right; left).
          by apply list_elem_of_filter in Hin as [? _]. }
      destruct Hp as [Hp Hp'].
      apply (fmap_sublist name) in Hsub. eapply sublist_NoDup in Hsub; [|exact Hnd].
      rewrite !fmap_cons, Hp, Hp' in Hsub.
      apply NoDup_cons in Hsub as [Hnin _]. apply Hnin. left.
  - unfold load; simpl. apply fmap_sublist, drop_seen_sublist.
Qed.

(** ** The filter *)

Lemma select_fmap (f : Player -> bool) (l : list Player) :
  select (f <$> l) l = filter (fun p => f p = true) l.
Proof.
  induction l as [|p l IH]; [done|].
  rewrite fmap_cons. cbn [select]. rewrite IH.
  destruct (f p) eqn:Hp.
  - by rewrite filter_cons_True by done.
  - by rewrite filter_cons_False by (rewrite Hp; done).
Qed.

Lemma filter_all {A} (P : A -> Prop) `{forall x, Decision (P x)} (l : list A) :
  (forall x, P x) -> filter P l = l.
Proof.
  intros HP. induction l as [|x l IH]; [done|].
  rewrite filter_cons_True by done. by rewrite IH.
Qed.

Section Stages.

Variable re : Re.engine.
Variable df : DataFrame.
Variables search style hand : option string.
Variable min_speed : option Z.

Lemma name_stage :
  search_compiles re search ->
  match truthy search with
  | Some pat => rmap (fun mask => select mask (rows df)) (str_contains re pat (rows df))
  | None => Ok (rows df)
  end = Ok (filter (name_matches re search) (rows df)).
Proof.
  unfold search_compiles, str_contains.
  destruct (truthy search) as [pat|] eqn:Ht.
  - intros [found Hre]. rewrite Hre.
    unfold rmap; cbn [bind].
    rewrite (select_fmap (fun p => found (name p))).
    f_equal. apply list_filter_iff. intros p.
    unfold name_matches. by rewrite Ht, Hre.
  - intros _. f_equal. symmetry. apply filter_all.
    intros p. unfold name_matches. by rewrite Ht.
Qed.

(** A search text that does not compile makes the call raise. *)
Lemma name_stage_error (pat : string) :
  truthy search = Some pat -> re pat = None ->
  filter_players re df search style hand min_speed = Raise ReError.
Proof.
  intros Ht Hre. unfold filter_players, str_contains. by rewrite Ht, Hre.
Qed.

Lemma style_stage (l : list Player) :
  match truthy style with
  | Some s => filter (fun p => Row.style p = Some s) l
  | None => l
  end = filter (style_matches style) l.
Proof.
  destruct (truthy style) as [s|] eqn:Ht.
  - apply list_filter_iff. intros p. unfold style_matches. by rewrite Ht.
  - symmetry. apply filter_all. intros p. unfold style_matches. by rewrite Ht.
Qed.

Lemma hand_stage (l : list Player) :
  match truthy hand with
  | Some h => filter (fun p => Row.hand p = Some h) l
  | None => l
  end = filter (hand_matches hand) l.
Proof.
  destruct (truthy hand) as [h|] eqn:Ht.
  - apply list_filter_iff. intros p. unfold hand_matches. by rewrite Ht.
  - symmetry. apply filter_all. intros p. unfold hand_matches. by rewrite Ht.
Qed.

Lemma speed_stage (l : list Player) :
  speed_readable df min_speed ->
  match truthy_num min_speed with
  | Some m =>
      if has_column df "speed" then Ok (filter (speed_ge m) l)
      else Raise (KeyError "speed")
  | None => Ok l
  end = Ok (filter (speed_matches min_speed) l).
Proof.
  unfold speed_readable.
  destruct min_speed as [m|] eqn:Hmin; cbn [truthy_num].
  - destruct (Z.eqb_spec m 0) as [->|Hm].
    + intros _. f_equal. symmetry. apply filter_all. intros p. by left.
    + intros ->. f_equal. apply list_filter_iff. intros p.
      unfold speed_matches. split; [by right|]. by intros [?|?].
  - intros _. f_equal. symmetry. by apply filter_all.
Qed.

(** With a search text that compiles and a readable speed column, the
    callback computes the sorted selection of the rows that satisfy the
    four constraints. *)
Lemma filter_players_eq :
  search_compiles re search -> speed_readable df min_speed ->
  filter_players re df search style hand min_speed =
  Ok (sort_values (filter (keeps re search style hand min_speed) (rows df))).
Proof.
  intros Hs Hm. unfold filter_players.
  rewrite (name_stage Hs). cbn [bind].
  rewrite style_stage, hand_stage, (speed_stage _ Hm). cbn [bind].
  do 2 f_equal. rewrite !list_filter_filter.
  apply list_filter_iff. intros p. unfold keeps. tauto.
Qed.

(** With a search text that compiles, an active speed filter on a frame
    without a speed column makes the call raise. *)
Lemma filter_players_no_speed (m : Z) :
  search_compiles re search -> truthy_num min_speed = Some m ->
  has_column df "speed" = false ->
  filter_players re df search style hand min_speed = Raise (KeyError "speed").
Proof.
  intros Hs Hm Hc. unfold filter_players.
  rewrite (name_stage Hs). cbn [bind]. by rewrite Hm, Hc.
Qed.

End Stages.

Lemma sample_engine_agrees : Re.agrees Re.sample_engine.
Proof.
  split.
  - intros pat atoms Hc. unfold Re.sample_engine. rewrite Hc. by eexists.
  - intros pat Hr. unfold Re.sample_engine.
    destruct (Re.compile pat) as [atoms|] eqn:Hc; [exfalso|done].
    unfold Re.rejected in Hr. apply andb_true_iff in Hr as [_ Hr].
    revert atoms Hc. induction pat as [|c pat IH]; intros atoms Hc; [discriminate|].
    cbn [list_ascii_of_string existsb] in Hr. cbn [Re.compile] in Hc.
    apply orb_true_iff in Hr as [Hr|Hr].
    + unfold Re.is_open_paren in Hr. apply Ascii.eqb_eq in Hr as ->.
      by vm_compute in Hc.
    + assert (Hsub : exists atoms', Re.compile pat = Some atoms').
      { destruct (negb (Re.is_ascii_char c)); [done|].
        destruct (Ascii.eqb c "."), (Ascii.eqb c "{"), (Re.repeat_shape pat),
          (Re.is_special c), (Re.compile pat); try done; by eexists. }
      destruct Hsub as [atoms' Hsub]. by apply (IH Hr atoms').
Qed.





(** ** The order of the player list *)

Lemma str_compare_trans (s t u : string) :
  String.compare s t <> Gt -> String.compare t u <> Gt -> String.compare s u <> Gt.
Proof.
  revert t u. induction s as [|a s IH]; intros [|b t] [|c u]; simpl; try congruence.
  unfold Ascii.compare.
  destruct (N.compare_spec (N_of_ascii a) (N_of_ascii b)) as [Hab|Hab|Hab];
    destruct (N.compare_spec (N_of_ascii b) (N_of_ascii c)) as [Hbc|Hbc|Hbc];
    destruct (N.compare_spec (N_of_ascii a) (N_of_ascii c)) as [Hac|Hac|Hac];
    try congruence; try lia.
  apply IH.
Qed.

Lemma str_le_compare (s t : string) : str_le s t <-> String.compare s t <> Gt.
Proof.
  unfold str_le, String.leb. destruct (String.compare s t); split; congruence.
Qed.

#[global] Instance str_le_trans : Transitive str_le.
Proof.
  intros s t u. rewrite !str_le_compare. apply str_compare_trans.
Qed.

#[global] Instance str_le_total : Total str_le.
Proof. intros s t. apply String.leb_total. Qed.

#[global] Instance str_le_antisym : AntiSymm (=) str_le.
Proof. intros s t. apply String.leb_antisym. Qed.

#[global] Instance name_le_trans : Transitive name_le.
Proof. intros p q r. apply str_le_trans. Qed.

#[global] Instance name_le_total : Total name_le.
Proof. intros p q. apply str_le_total. Qed.

Lemma sort_values_sorted (l : list Player) :
  StronglySorted name_le (sort_values l).
Proof. apply StronglySorted_merge_sort; apply _. Qed.

Lemma sort_values_names_sorted (l : list Player) :
  StronglySorted str_le (name <$> sort_values l).
Proof.
  apply (StronglySorted_fmap name name_le str_le); [|apply sort_values_sorted].
  intros p q H. exact H.
Qed.

Lemma NoDup_names_inj (l : list Player) (p q : Player) :
  NoDup (name <$> l) -> p ∈ l -> q ∈ l -> name p = name q -> p = q.
Proof.
  induction l as [|r l IH]; intros Hnd Hp Hq Heq; [inversion Hp|].
  rewrite fmap_cons in Hnd. apply NoDup_cons in Hnd as [Hr Hnd].
  apply elem_of_cons in Hp as [->|Hp]; apply elem_of_cons in Hq as [->|Hq].
  - done.
  - exfalso. apply Hr. rewrite Heq. apply list_elem_of_fmap. eauto.
  - exfalso. apply Hr. rewrite <- Heq. apply list_elem_of_fmap. eauto.
  - by apply IH.
Qed.

(** Rows with pairwise distinct names have one sorted arrangement. *)
Lemma sort_values_perm (l k : list Player) :
  NoDup (name <$> l) -> l ≡ₚ k -> sort_values l = sort_values k.
Proof.
  intros Hnd Hperm.
  assert (Hl : sort_values l ≡ₚ l) by apply merge_sort_Permutation.
  assert (Hk : sort_values k ≡ₚ k) by apply merge_sort_Permutation.
  apply (StronglySorted_unique_strong name_le);
    [|apply sort_values_sorted|apply sort_values_sorted|by rewrite Hl, Hk].
  intros p q Hp Hq Hpq Hqp.
  apply (NoDup_names_inj (sort_values l)); [by rewrite Hl|done| |].
  { by rewrite Hl, Hperm, <- Hk. }
  by apply String.leb_antisym.
Qed.

(** C6: the rows the filter returns are in ascending order of their names
    for the code-point order of texts, a total order that does not depend
    on the input; and the store holding one row per name, the returned
    sequence is the same for every arrangement of the rows of the store. *)
Theorem filter_players_sorted (re : Re.engine) (df : DataFrame)
    (search style hand : option string) (min_speed : option Z) :
  search_compiles re search ->
  speed_readable df min_speed ->
  exists out : list Player,
    filter_players re df search style hand min_speed = Ok out /\
    StronglySorted str_le (name <$> out) /\
    forall df' : DataFrame,
      columns df' = columns df -> rows df' ≡ₚ rows df ->
      NoDup (name <$> rows df) ->
      filter_players re df' search style hand min_speed = Ok out.
Proof.
  intros Hs Hm.
  exists (sort_values (filter (keeps re search style hand min_speed) (rows df))).
  split; [by apply filter_players_eq|].
  split; [apply sort_values_names_sorted|].
  intros df' Hcols Hrows Hnd.
  rewrite filter_players_eq.
  - f_equal. symmetry. apply sort_values_perm.
    + eapply sublist_NoDup; [exact Hnd|]. apply fmap_sublist, sublist_filter.
    + by rewrite Hrows.
  - done.
  - unfold speed_readable, has_column in *. by rewrite Hcols.
Qed.

Lemma filter_players_sorted_witness :
  exists out : list Player,
    filter_players Re.sample_engine sample_df (Some "a") None None (Some 5) = Ok out /\
    StronglySorted str_le (name <$> out).
Proof.
  destruct (filter_players_sorted Re.sample_engine sample_df (Some "a") None None
              (Some 5))
    as (out & Hout & Hsorted & _).
  - by eexists.
  - reflexivity.
  - exists out. split; assumption.
Defined.

(** ** The search box *)

Example search_samples :
  Re.compile "An." = Some [Re.Lit "A"; Re.Lit "n"; Re.AnyChar]%char /\
  Re.compile "a{b}]" = Some [Re.Lit "a"; Re.Lit "{"; Re.Lit "b"; Re.Lit "}"; Re.Lit "]"]%char /\
  Re.compile "a{2,}" = None /\
  Re.compile "a(b" = None /\ Re.rejected "a(b" = true /\
  Re.search [Re.Lit "N"; Re.AnyChar]%char (decode "Ana") = true /\
  Re.search [Re.Lit "n"; Re.AnyChar]%char (decode "An") = false /\
  Re.search [Re.Lit "j"; Re.Lit "o"; Re.Lit "s"]%char (decode "José") = true /\
  decode "José" = [74; 111; 115; 233]%N.
Proof. repeat split; reflexivity. Qed.

Lemma lower_cons (c : ascii) (s : string) :
  lower (String c s) = String (to_lower c) (lower s).
Proof. reflexivity. Qed.

Lemma not_contains_dot_Ana : ~ contains_ci "." "Ana".
Proof.
  intros (pre & post & H).
  destruct pre as [|a [|b [|c [|d pre]]]]; vm_compute in H; congruence.
Qed.

Lemma not_contains_dot_Bo : ~ contains_ci "." "Bo".
Proof.
  intros (pre & post & H).
  destruct pre as [|a [|b [|c pre]]]; vm_compute in H; congruence.
Qed.

(** C4, on the code: the search text is handed to [str.contains] as a
    regular expression.  With any engine that agrees with [re] on the dot
    and on the unclosed parenthesis, the search text "." keeps both rows
    of the sample store although neither name contains a dot, and the
    search text "(" makes the callback raise [re.error]. *)
Theorem search_text_is_a_pattern (re : Re.engine) :
  Re.agrees re ->
  rmap (fmap name) (filter_players re sample_df (Some ".") None None None)
    = Ok ["Ana"; "Bo"] /\
  ~ contains_ci "." "Ana" /\ ~ contains_ci "." "Bo" /\
  update_player_list re sample_df (Some "(") None None None = Raise ReError.
Proof.
  intros [Hknown Hrejected].
  destruct (Hknown "." [Re.AnyChar] eq_refl) as (found & Hre & Hfound).
  split; [|split; [exact not_contains_dot_Ana|split; [exact not_contains_dot_Bo|]]].
  - unfold filter_players, str_contains. cbn [truthy String.eqb Ascii.eqb Bool.eqb].
    rewrite Hre. unfold rmap; cbn [bind].
    assert (Hrows : rows sample_df = [normalize_row bo; normalize_row ana])
      by (vm_compute; reflexivity).
    rewrite Hrows. cbn [fmap list_fmap name normalize_row select].
    rewrite !Hfound.
    vm_compute. reflexivity.
  - unfold update_player_list.
    rewrite (name_stage_error re sample_df (Some "(") None None None "(");
      [reflexivity|reflexivity|].
    apply Hrejected. reflexivity.
Qed.

Lemma search_text_is_a_pattern_witness :
  rmap (fmap name) (filter_players Re.sample_engine sample_df (Some ".") None None None)
    = Ok ["Ana"; "Bo"] /\
  update_player_list Re.sample_engine sample_df (Some "(") None None None
    = Raise ReError.
Proof.
  destruct (search_text_is_a_pattern Re.sample_engine sample_engine_agrees)
    as (Hdot & _ & _ & Hparen).
  split; assumption.
Defined.

(** ** Defaults of the views *)

(** The default of [get] is used for a column the frame does not have. *)
Lemma get_absent_column (df : DataFrame) (p : Player) (k : string) (dflt : value) :
  has_column df k = false -> get df p k dflt = dflt.
Proof. unfold get. by intros ->. Qed.

(** A missing cell of a column the frame has is returned as NaN, whatever
    the default. *)
Lemma get_missing_cell (df : DataFrame) (p : Player) (k : string) (dflt : value) :
  k ∉ fixed_columns -> k ∈ columns df -> attrs p !! k = None ->
  get df p k dflt = VNaN.
Proof.
  intros Hfixed Hcol Hcell. unfold get, has_column.
  rewrite (bool_decide_eq_true_2 (k ∈ columns df)) by done.
  rewrite orb_true_r. unfold cell. rewrite Hcell.
  unfold fixed_columns in Hfixed. rewrite !not_elem_of_cons in Hfixed.
  destruct Hfixed as (H1 & H2 & H3 & _).
  apply String.eqb_neq in H1, H2, H3. by rewrite H1, H2, H3.
Qed.

(** C7, on the code: Bo has neither a forehand power nor a service power,
    while Ana has both, so both are columns of the store.  The overview of
    Bo shows NaN, not 0, for the forehand power, and the serve table of Bo
    shows NaN, not the dash, for the service power.  The defaults appear
    only for the attributes no record of the data set has (backhand power
    and focus in the overview, service consistency and precision in the
    table). *)
Theorem missing_attribute_views_sample :
  attrs bo !! "fh_power" = None /\ attrs bo !! "srv_power" = None /\
  render_tabs plain_parse_qs plain_unquote sample_df
    (Some "overview") (Some "?player=Bo") =
  Ok (Overview (VStr "Bo")
        {| play_style := VStr "Defensive"; dominant_hand := VStr "Left";
           height := VInt 180; weight := VInt 75 |}
        [("Forehand Power", VNaN); ("Backhand Power", VInt 0);
         ("Service Power", VNaN); ("Speed", VInt 40); ("Stamina", VNaN);
         ("Focus", VInt 0)]) /\
  render_tabs plain_parse_qs plain_unquote sample_df
    (Some "serve") (Some "?player=Bo") =
  Ok (GroupTable (VStr "Bo") "Serve"
        [("Service Power", VNaN); ("Service Consistency", VStr "—");
         ("Service Precision", VStr "—")]).
Proof. repeat split; vm_compute; reflexivity. Qed.

(** ** The comparison *)

Lemma radar_labels_lookup :
  mapM (dict_getitem LABELS) radar_attrs = Ok radar_labels.
Proof. vm_compute. reflexivity. Qed.

Lemma polar_frame_eq (df : DataFrame) (p : Player) (tag : string) :
  polar_frame df p tag =
  Ok (zip_with (fun l k => {| Attribute := l; Value := get df p k (VInt 0);
                              Player_tag := tag |})
        radar_labels radar_attrs).
Proof. unfold polar_frame. rewrite radar_labels_lookup. reflexivity. Qed.

Lemma table_rows_eq {A B} (f : string -> A) (g : string -> B) :
  mapM (fun attr => rmap (fun l => (l, f attr, g attr)) (dict_getitem LABELS attr))
       radar_attrs =
  Ok (zip_with (fun l k => (l, f k, g k)) radar_labels radar_attrs).
Proof. vm_compute. reflexivity. Qed.

(** C8: exchanging the two players exchanges the two charted frames (each
    keeps its rows and its tag), the two names of the table header and the
    two value columns of the table; and a comparison that is produced
    consists of the frames of the two players over the six radar
    attributes, in order. *)
Theorem compare_players_swap (df : DataFrame) (a b : option string) :
  compare_players df b a = rmap swap_view (compare_players df a b) /\
  forall c : Comparison,
    compare_players df a b = Ok (Compared c) ->
    exists (a' b' : string) (p1 p2 : Player),
      truthy a = Some a' /\ truthy b = Some b' /\
      head (name_is a' df) = Some p1 /\ head (name_is b' df) = Some p2 /\
      df1 c = zip_with (fun l k => {| Attribute := l;
                                     Value := get df p1 k (VInt 0);
                                     Player_tag := a' |})
                radar_labels radar_attrs /\
      df2 c = zip_with (fun l k => {| Attribute := l;
                                     Value := get df p2 k (VInt 0);
                                     Player_tag := b' |})
                radar_labels radar_attrs /\
      header c = (a', b') /\
      table_rows c = zip_with (fun l k => (l, get df p1 k (VStr "—"),
                                              get df p2 k (VStr "—")))
                       radar_labels radar_attrs.
Proof.
  unfold compare_players.
  destruct (truthy a) as [a'|], (truthy b) as [b'|];
    try (split; [reflexivity|discriminate]).
  destruct (name_is a' df) as [|p1 l1] eqn:H1, (name_is b' df) as [|p2 l2] eqn:H2;
    cbn [iloc0 bind rmap].
  - split; [reflexivity|discriminate].
  - split; [reflexivity|discriminate].
  - split; [reflexivity|discriminate].
  - rewrite !polar_frame_eq. cbn [bind].
    rewrite !(table_rows_eq (fun k => get df _ k (VStr "—"))). cbn [bind rmap].
    split; [reflexivity|].
    intros c Hc. injection Hc as <-.
    exists a', b', p1, p2. rewrite H1, H2. repeat split; reflexivity.
Qed.

Lemma compare_players_swap_witness :
  exists c : Comparison,
    compare_players sample_df (Some "Ana") (Some "Bo") = Ok (Compared c) /\
    compare_players sample_df (Some "Bo") (Some "Ana") = Ok (Compared (swap_comparison c)) /\
    header c = ("Ana", "Bo").
Proof.
  destruct (compare_players_swap sample_df (Some "Ana") (Some "Bo")) as [Hswap Hshape].
  eexists. split; [vm_compute; reflexivity|].
  split; [rewrite Hswap; vm_compute; reflexivity|reflexivity].
Defined.

(** ** Soft failures *)

Lemma name_is_nil (df : DataFrame) (n : string) :
  n ∉ name <$> rows df -> name_is n df = [].
Proof.
  intros Hn. unfold name_is.
  destruct (filter (fun p => name p = n) (rows df)) as [|p l] eqn:Hf; [done|].
  exfalso. apply Hn.
  assert (Hp : p ∈ filter (fun p => name p = n) (rows df)) by (rewrite Hf; left).
  apply list_elem_of_filter in Hp as [<- Hp]. apply list_elem_of_fmap. eauto.
Qed.

Lemma name_is_cons (df : DataFrame) (n : string) :
  n ∈ name <$> rows df -> exists p l, name_is n df = p :: l.
Proof.
  intros (p & -> & Hp)%list_elem_of_fmap. unfold name_is.
  destruct (filter (fun q => name q = name p) (rows df)) as [|q l] eqn:Hf; [|eauto].
  assert (Hin : p ∈ filter (fun q => name q = name p) (rows df))
    by (by apply list_elem_of_filter).
  rewrite Hf in Hin. inversion Hin.
Qed.

Lemma unknown_tab_branches (t : string) :
  t ∉ known_tabs ->
  String.eqb t "overview" = false /\ bool_decide (t ∈ group_tabs) = false /\
  String.eqb t "talents" = false /\ String.eqb t "compare" = false.
Proof.
  unfold known_tabs, group_tabs. rewrite !not_elem_of_cons.
  intros (H1 & H2 & H3 & H4 & H5 & H6 & H7 & H8 & _).
  repeat split; try (by apply String.eqb_neq).
  apply bool_decide_eq_false_2. rewrite !not_elem_of_cons.
  repeat split; try done. apply not_elem_of_nil.
Qed.

(** C9: the lookups a user can cause end in ordinary results, whatever
    the query decoder is: without a selected player the view is the
    "select a player" message; a selected name that no row of the store
    has gives the "not found" result carrying that name; for a player of
    the store, a tab other than the eight known ones (or no tab) gives the
    "invalid tab" result; and a comparison with an empty slot gives the
    "select two players" message. *)
Theorem soft_failures_are_results
    (parse_qs : string -> gmap string (list string))
    (unquote_plus : string -> string) (df : DataFrame) :
  (forall tab search : option string,
     truthy (selected_player parse_qs unquote_plus search) = None ->
     render_tabs parse_qs unquote_plus df tab search = Ok SelectPlayer) /\
  (forall (tab search : option string) (n : string),
     truthy (selected_player parse_qs unquote_plus search) = Some n ->
     n ∉ name <$> rows df ->
     render_tabs parse_qs unquote_plus df tab search = Ok (NotFound n)) /\
  (forall (tab search : option string) (n : string),
     truthy (selected_player parse_qs unquote_plus search) = Some n ->
     n ∈ name <$> rows df ->
     (forall t, tab = Some t -> t ∉ known_tabs) ->
     render_tabs parse_qs unquote_plus df tab search = Ok InvalidTab) /\
  (forall a b : option string,
     truthy a = None \/ truthy b = None ->
     compare_players df a b = Ok SelectTwoPlayers).
Proof.
  repeat split.
  - intros tab search Hsel. unfold render_tabs. by rewrite Hsel.
  - intros tab search n Hsel Hn. unfold render_tabs.
    by rewrite Hsel, (name_is_nil df n Hn).
  - intros tab search n Hsel Hn Htab. unfold render_tabs. rewrite Hsel.
    destruct (name_is_cons df n Hn) as (p & l & ->).
    destruct tab as [t|]; [|done].
    destruct (unknown_tab_branches t (Htab t eq_refl)) as (-> & -> & -> & ->).
    done.
  - intros a b [Ha|Hb]; unfold compare_players.
    + by rewrite Ha.
    + rewrite Hb. by destruct (truthy a).
Qed.

Lemma sample_df_names : name <$> rows sample_df = ["Bo"; "Ana"].
Proof. vm_compute. reflexivity. Qed.

Lemma soft_failures_are_results_witness :
  render_tabs plain_parse_qs plain_unquote sample_df (Some "overview") (Some "?tab=1")
    = Ok SelectPlayer /\
  render_tabs plain_parse_qs plain_unquote sample_df (Some "overview") (Some "?player=Cy")
    = Ok (NotFound "Cy") /\
  render_tabs plain_parse_qs plain_unquote sample_df (Some "history") (Some "?player=Bo")
    = Ok InvalidTab /\
  compare_players sample_df (Some "Ana") None = Ok SelectTwoPlayers.
Proof.
  destruct (soft_failures_are_results plain_parse_qs plain_unquote sample_df)
    as (Hnone & Hunknown & Htab & Hslot).
  split; [|split; [|split]].
  - apply Hnone. reflexivity.
  - apply Hunknown; [reflexivity|].
    rewrite sample_df_names, !not_elem_of_cons. repeat split; try discriminate.
    apply not_elem_of_nil.
  - apply (Htab _ _ "Bo"); [reflexivity| |].
    + rewrite sample_df_names, !elem_of_cons. auto.
    + intros t [= <-]. unfold known_tabs. rewrite !not_elem_of_cons.
      repeat split; try discriminate. apply not_elem_of_nil.
  - apply Hslot. right. reflexivity.
Defined.

(** Outside those conditions a comparison can raise: a name that is in
    neither drop-down's options has no row. *)
Lemma compare_players_unknown_name :
  compare_players sample_df (Some "Cy") (Some "Bo") = Raise IndexError.
Proof. vm_compute. reflexivity. Qed.

(** * Further properties of the code *)

(** ** The hand column and the load *)

Lemma HAND_REPLACE_value_final (x v : string) :
  HAND_REPLACE !! x = Some v -> HAND_REPLACE !! v = None.
Proof.
  intros Hx. apply elem_of_list_to_map_2 in Hx.
  pose proof HAND_REPLACE_values_final as Hfin.
  rewrite Forall_forall in Hfin. apply Hfin.
  apply list_elem_of_fmap. by exists (x, v).
Qed.

Lemma HAND_REPLACE_value_side (x v : string) :
  HAND_REPLACE !! x = Some v -> v = "Left" \/ v = "Right".
Proof.
  intros Hx. apply elem_of_list_to_map_2 in Hx.
  unfold HAND_REPLACE_ITEMS in Hx.
  repeat (apply elem_of_cons in Hx as [Heq|Hx];
          [injection Heq as _ Hv; subst v; auto|]).
  inversion Hx.
Qed.

(** X1: the replacement is by exact, case-sensitive match: a spelling
    that is not a key of the table is stored as it is, so the hand of the
    store is "Left" or "Right" exactly for a missing cell, a listed
    spelling, or a cell that already reads "Left" or "Right". *)
Theorem normalize_hand_cases :
  (forall x : string, x ∉ dom HAND_REPLACE -> normalize_hand (Some x) = x) /\
  (forall h : option string,
     normalize_hand h = "Left" \/ normalize_hand h = "Right" <->
     h = None \/
     exists x, h = Some x /\ (x ∈ dom HAND_REPLACE \/ x = "Left" \/ x = "Right")).
Proof.
  assert (Hout : forall x, x ∉ dom HAND_REPLACE -> normalize_hand (Some x) = x).
  { intros x Hx. apply not_elem_of_dom in Hx.
    unfold normalize_hand, replace, fillna. by rewrite Hx. }
  split; [exact Hout|].
  intros [x|]; [|split; [by left|intros _; by left]].
  split.
  - intros Hn. right. exists x. split; [done|].
    destruct (decide (x ∈ dom HAND_REPLACE)) as [?|Hx]; [by left|right].
    by rewrite (Hout x Hx) in Hn.
  - intros [?|(y & [= <-] & [Hx|Hx])]; [done| |].
    + apply elem_of_dom in Hx as [v Hv].
      unfold normalize_hand, replace, fillna. rewrite Hv.
      by apply (HAND_REPLACE_value_side x).
    + destruct Hx as [-> | ->]; [by left|by right].
Qed.

Lemma normalize_hand_cases_witness :
  normalize_hand (Some "LEFT") = "LEFT" /\
  normalize_hand (Some "Ambidextrous") = "Ambidextrous".
Proof.
  split; apply (proj1 normalize_hand_cases);
    rewrite HAND_REPLACE_dom; intros H%elem_of_list_to_set; simpl in H;
    rewrite !elem_of_cons in H; rewrite elem_of_nil in H;
    repeat (destruct H as [H|H]; [discriminate H|]); exact H.
Defined.

Lemma normalize_hand_idem (h : option string) :
  normalize_hand (Some (normalize_hand h)) = normalize_hand h.
Proof.
  unfold normalize_hand, replace. cbn [fillna].
  destruct (HAND_REPLACE !! fillna "Unknown" h) as [v|] eqn:Hv.
  - by rewrite (HAND_REPLACE_value_final _ _ Hv).
  - by rewrite Hv.
Qed.

Lemma drop_seen_id (seen : gset string) (l : list Player) :
  NoDup (name <$> l) -> (forall n, n ∈ name <$> l -> n ∉ seen) ->
  drop_seen seen l = l.
Proof.
  revert seen. induction l as [|p l IH]; intros seen Hnd Hfresh; [done|].
  rewrite fmap_cons in Hnd. apply NoDup_cons in Hnd as [Hp Hnd]. simpl.
  rewrite bool_decide_eq_false_2 by (apply Hfresh; rewrite fmap_cons; left).
  f_equal. apply IH; [done|].
  intros n Hn [->%elem_of_singleton|Hs]%elem_of_union; [done|].
  apply (Hfresh n); [rewrite fmap_cons; by right|done].
Qed.

(** X2: loading is idempotent on the rows: the rows of the store, loaded
    again, give the same rows (nothing more is dropped, and a normalized
    hand is not changed by a second normalization). *)
Theorem load_rows_idempotent (data : list Player) :
  rows (load (rows (load data))) = rows (load data).
Proof.
  unfold load at 1. cbn [rows drop_duplicates DataFrame_of columns].
  rewrite drop_seen_id.
  - unfold load. cbn [rows drop_duplicates DataFrame_of columns].
    rewrite <- list_fmap_compose. apply list_fmap_ext. intros _ p _.
    unfold normalize_row; simpl. by rewrite normalize_hand_idem.
  - unfold load; simpl. rewrite names_normalize_row. apply drop_seen_NoDup.
  - intros n _. apply not_elem_of_empty.
Qed.

Lemma has_column_load (data : list Player) (k : string) :
  k ∉ fixed_columns ->
  has_column (load data) k = true <->
  exists q, q ∈ data /\ is_Some (attrs q !! k).
Proof.
  intros Hk. unfold has_column.
  rewrite (bool_decide_eq_false_2 (k ∈ fixed_columns)) by done.
  rewrite orb_false_l, bool_decide_eq_true.
  unfold load; cbn [columns drop_duplicates DataFrame_of].
  rewrite elem_of_union_list. split.
  - intros (X & HX & HkX). apply list_elem_of_fmap in HX as (q & -> & Hq).
    exists q. split; [done|]. by apply elem_of_dom.
  - intros (q & Hq & Hsome). exists (dom (attrs q)). split.
    + apply list_elem_of_fmap. by exists q.
    + by apply elem_of_dom.
Qed.

(** X3: on the loaded store the default handed to [get] is returned only
    for an attribute that no record of the data set has; as soon as one
    record has it (be it a duplicate dropped by the load) a player without
    it gets NaN, whatever the default. *)
Theorem get_default_on_loaded_store (data : list Player) (p : Player)
    (k : string) (dflt : value) :
  k ∉ fixed_columns -> attrs p !! k = None ->
  ((forall q, q ∈ data -> attrs q !! k = None) ->
   get (load data) p k dflt = dflt) /\
  (forall q, q ∈ data -> is_Some (attrs q !! k) ->
   get (load data) p k dflt = VNaN).
Proof.
  intros Hk Hp. split.
  - intros Hnone. apply get_absent_column.
    destruct (has_column (load data) k) eqn:Hc; [|done].
    apply has_column_load in Hc as (q & Hq & [v Hv]); [|done].
    by rewrite (Hnone q Hq) in Hv.
  - intros q Hq Hsome.
    assert (Hc : has_column (load data) k = true)
      by (apply has_column_load; eauto).
    unfold get. rewrite Hc. unfold cell. rewrite Hp.
    unfold fixed_columns in Hk. rewrite !not_elem_of_cons in Hk.
    destruct Hk as (H1 & H2 & H3 & _).
    apply String.eqb_neq in H1, H2, H3. by rewrite H1, H2, H3.
Qed.

Lemma not_fixed_column (k : string) :
  String.eqb k "name" = false -> String.eqb k "style" = false ->
  String.eqb k "hand" = false -> k ∉ fixed_columns.
Proof.
  intros H1%String.eqb_neq H2%String.eqb_neq H3%String.eqb_neq.
  unfold fixed_columns. rewrite !not_elem_of_cons. repeat split; try done.
  apply not_elem_of_nil.
Qed.

Lemma get_default_on_loaded_store_witness :
  get (load sample_data) bo "focus" (VInt 0) = VInt 0 /\
  get (load sample_data) bo "stamina" (VInt 0) = VNaN.
Proof.
  assert (Hfocus : "focus" ∉ fixed_columns) by (by apply not_fixed_column).
  assert (Hstamina : "stamina" ∉ fixed_columns) by (by apply not_fixed_column).
  split.
  - apply (get_default_on_loaded_store sample_data bo "focus" (VInt 0) Hfocus);
      [reflexivity|].
    intros q Hq. unfold sample_data in Hq. rewrite !elem_of_cons in Hq.
    destruct Hq as [-> | [-> | [-> | Hq]]]; [reflexivity..|].
    by apply elem_of_nil in Hq.
  - apply (get_default_on_loaded_store sample_data bo "stamina" (VInt 0) Hstamina
             eq_refl) with (q := ana_again).
    + unfold sample_data. rewrite !elem_of_cons. auto.
    + by eexists.
Defined.

(** ** The talent transform, for every value *)

Lemma talent_to_stars_unfold (val : value) (max_one : bool) :
  exists n : Z,
    n = match Py.int val with Some n => n | None => 0 end /\
    talent_to_stars val max_one =
    if max_one
    then (if Z.min n 1 =? 0 then "—" else str_mul "⭐" (Z.min n 1))
    else (if (if 2 <? n then 2 else n) =? 0 then "—"
          else str_mul "⭐" (if 2 <? n then 2 else n)).
Proof. eexists. split; [reflexivity|]. unfold talent_to_stars. by destruct max_one. Qed.

(** X4: whatever the value, the transform gives the empty text, the dash,
    one star or two stars, and never two stars when [max_one] is set; the
    empty text is given only for a value that [int] reads as a negative
    number. *)
Theorem talent_to_stars_range (val : value) :
  talent_to_stars val false ∈ [""; "—"; "⭐"; "⭐⭐"] /\
  talent_to_stars val true ∈ [""; "—"; "⭐"] /\
  (forall max_one : bool, talent_to_stars val max_one = "" ->
     exists n : Z, Py.int val = Some n /\ n < 0).
Proof.
  assert (Hint : forall n, n = match Py.int val with Some n => n | None => 0 end ->
                 n < 0 -> Py.int val = Some n).
  { intros n -> Hn. destruct (Py.int val); [done|lia]. }
  split; [|split].
  - destruct (talent_to_stars_unfold val false) as (n & Hn & ->).
    rewrite !elem_of_cons.
    destruct (clamp_unset_cases n) as [[H ->]|[[-> ->]|[[-> ->]|[H ->]]]]; auto.
    destruct (Z.eqb_spec n 0); [lia|]. rewrite str_mul_nonpos by lia. auto.
  - destruct (talent_to_stars_unfold val true) as (n & Hn & ->).
    rewrite !elem_of_cons.
    destruct (Z.lt_trichotomy n 0) as [H|[->|H]]; [|auto|].
    + rewrite Z.min_l by lia. destruct (Z.eqb_spec n 0); [lia|].
      rewrite str_mul_nonpos by lia. auto.
    + rewrite Z.min_r by lia. auto.
  - intros max_one.
    destruct (talent_to_stars_unfold val max_one) as (n & Hn & ->).
    destruct (Z.lt_trichotomy n 0) as [H|[->|H]]; [eauto| |].
    + destruct max_one; discriminate.
    + destruct max_one.
      * rewrite Z.min_r by lia. discriminate.
      * destruct (clamp_unset_cases n) as [[? ->]|[[-> ->]|[[-> ->]|[? ->]]]];
          try lia; discriminate.
Qed.

(** ** The tabs of a player of the store *)

Lemma render_tabs_found
    (parse_qs : string -> gmap string (list string))
    (unquote_plus : string -> string) (df : DataFrame)
    (t : string) (search : option string) (n : string) (p : Player) (l : list Player) :
  truthy (selected_player parse_qs unquote_plus search) = Some n ->
  name_is n df = p :: l ->
  render_tabs parse_qs unquote_plus df (Some t) search =
  if String.eqb t "overview" then overview df p
  else if bool_decide (t ∈ group_tabs) then group_table df p t
  else if String.eqb t "talents" then talents df p
  else if String.eqb t "compare" then compare_form df p
  else Ok InvalidTab.
Proof. intros Hsel Hp. unfold render_tabs. by rewrite Hsel, Hp. Qed.

Lemma name_is_head (df : DataFrame) (n : string) (p : Player) (l : list Player) :
  name_is n df = p :: l -> name p = n /\ p ∈ rows df.
Proof.
  intros Hp. unfold name_is in Hp.
  assert (Hin : p ∈ filter (fun q => name q = n) (rows df)) by (rewrite Hp; left).
  by apply list_elem_of_filter in Hin.
Qed.

Lemma getitem_name (df : DataFrame) (p : Player) :
  getitem df p "name" = Ok (VStr (name p)).
Proof. reflexivity. Qed.

(** The rows of a table built from labelled keys. *)
Lemma labelled_rows {A} (f : string -> A) (keys : list string) :
  Forall (fun k => is_Some (LABELS !! k)) keys ->
  exists table : list (string * A),
    mapM (fun key => rmap (fun l => (l, f key)) (dict_getitem LABELS key)) keys
      = Ok table /\
    table.*2 = f <$> keys /\
    Forall2 (fun row k => LABELS !! k = Some row.1) table keys.
Proof.
  induction 1 as [|k keys [lbl Hk] _ (table & Htable & Hvals & Hlabels)].
  - exists []. repeat split; constructor.
  - exists ((lbl, f k) :: table). cbn [mapM]. unfold dict_getitem at 1.
    rewrite Hk. cbn [rmap bind]. rewrite Htable. cbn [bind].
    split; [done|]. split; [by rewrite !fmap_cons, Hvals|].
    by constructor.
Qed.

(** Every key of every group has a label. *)
Lemma GROUPS_labelled (g : string) (keys : list string) :
  GROUPS !! g = Some keys -> Forall (fun k => is_Some (LABELS !! k)) keys.
Proof.
  intros Hg. apply elem_of_list_to_map_2 in Hg.
  repeat (apply elem_of_cons in Hg as [Heq|Hg];
          [injection Heq as _ Hkeys; subst keys;
           repeat (apply Forall_cons; split; [eexists; vm_compute; reflexivity|]);
           by apply Forall_nil|]).
  inversion Hg.
Qed.

Lemma GROUPS_Talents : GROUPS !! "Talents" = Some talent_keys.
Proof. vm_compute. reflexivity. Qed.

Lemma talent_keys_not_fixed (k : string) : k ∈ talent_keys -> k ∉ fixed_columns.
Proof.
  unfold talent_keys. rewrite !elem_of_cons, elem_of_nil.
  intros H. repeat (destruct H as [-> | H]; [by apply not_fixed_column|]). done.
Qed.

(** X5: for a player of the store the Talents tab never raises: it is a
    table of the nine talents in the order of the group, each with its
    label and the star text of its cell; a talent the player lacks shows
    the dash, be the column absent from the store or only the cell
    missing. *)
Theorem talents_tab
    (parse_qs : string -> gmap string (list string))
    (unquote_plus : string -> string) (df : DataFrame)
    (search : option string) (n : string) (p : Player) (l : list Player) :
  truthy (selected_player parse_qs unquote_plus search) = Some n ->
  name_is n df = p :: l ->
  exists table : list (string * string),
    render_tabs parse_qs unquote_plus df (Some "talents") search
      = Ok (TalentsTable (VStr n) table) /\
    table.*2 = (fun k => talent_to_stars (get df p k (VInt 0)) false) <$> talent_keys /\
    Forall2 (fun row k => LABELS !! k = Some row.1) table talent_keys /\
    forall k, k ∈ talent_keys -> attrs p !! k = None ->
              talent_to_stars (get df p k (VInt 0)) false = "—".
Proof.
  intros Hsel Hp.
  destruct (labelled_rows (fun k => talent_to_stars (get df p k (VInt 0)) false)
              talent_keys (GROUPS_labelled _ _ GROUPS_Talents))
    as (table & Htable & Hvals & Hlabels).
  exists table. split; [|split; [done|split; [done|]]].
  - rewrite (render_tabs_found _ _ _ _ _ _ _ _ Hsel Hp). cbn [String.eqb Ascii.eqb].
    change (bool_decide ("talents" ∈ group_tabs)) with false; cbn [Bool.eqb].
    unfold talents, dict_getitem at 1. rewrite GROUPS_Talents. cbn [bind].
    rewrite Htable. cbn [bind]. rewrite getitem_name. cbn [bind].
    by destruct (name_is_head _ _ _ _ Hp) as [-> _].
  - intros k Hk Hcell. apply talent_keys_not_fixed in Hk.
    destruct (has_column df k) eqn:Hc.
    + unfold get. rewrite Hc. unfold cell. rewrite Hcell.
      unfold fixed_columns in Hk. rewrite !not_elem_of_cons in Hk.
      destruct Hk as (H1 & H2 & H3 & _).
      apply String.eqb_neq in H1, H2, H3. by rewrite H1, H2, H3.
    + by rewrite get_absent_column.
Qed.

Lemma sample_selected_Bo :
  truthy (selected_player plain_parse_qs plain_unquote (Some "?player=Bo")) = Some "Bo".
Proof. reflexivity. Defined.

Lemma sample_name_is_Bo :
  name_is "Bo" sample_df = [normalize_row bo].
Proof. vm_compute. reflexivity. Defined.

Lemma talents_tab_witness :
  exists table : list (string * string),
    render_tabs plain_parse_qs plain_unquote sample_df (Some "talents")
      (Some "?player=Bo") = Ok (TalentsTable (VStr "Bo") table) /\
    table.*2 = (fun k => talent_to_stars (get sample_df (normalize_row bo) k (VInt 0)) false)
                 <$> talent_keys.
Proof.
  destruct (talents_tab plain_parse_qs plain_unquote sample_df (Some "?player=Bo")
              "Bo" (normalize_row bo) [] sample_selected_Bo sample_name_is_Bo)
    as (table & Hrender & Hvals & _).
  exists table. split; assumption.
Defined.

Lemma group_tab_keys (t : string) :
  t ∈ group_tabs ->
  String.eqb t "overview" = false /\
  exists keys, GROUPS !! capitalize t = Some keys.
Proof.
  unfold group_tabs. rewrite !elem_of_cons, elem_of_nil.
  intros H.
  repeat (destruct H as [-> | H];
          [split; [reflexivity|eexists; vm_compute; reflexivity]|]).
  done.
Qed.

(** X6: for a player of the store the five group tabs never raise: the
    tab name, capitalized, is a key of [GROUPS], every key of the group
    has a label, and the table lists the keys of the group in order, each
    with its label and the player's cell (the dash when the store lacks
    the column). *)
Theorem group_tab
    (parse_qs : string -> gmap string (list string))
    (unquote_plus : string -> string) (df : DataFrame)
    (t : string) (search : option string) (n : string) (p : Player) (l : list Player) :
  truthy (selected_player parse_qs unquote_plus search) = Some n ->
  name_is n df = p :: l ->
  t ∈ group_tabs ->
  exists (keys : list string) (table : list (string * value)),
    GROUPS !! capitalize t = Some keys /\
    render_tabs parse_qs unquote_plus df (Some t) search
      = Ok (GroupTable (VStr n) (capitalize t) table) /\
    table.*2 = (fun k => get df p k (VStr "—")) <$> keys /\
    Forall2 (fun row k => LABELS !! k = Some row.1) table keys.
Proof.
  intros Hsel Hp Ht.
  destruct (group_tab_keys t Ht) as (Hov & keys & Hkeys).
  destruct (labelled_rows (fun k => get df p k (VStr "—")) keys
              (GROUPS_labelled _ _ Hkeys)) as (table & Htable & Hvals & Hlabels).
  exists keys, table. split; [done|]. split; [|done].
  rewrite (render_tabs_found _ _ _ _ _ _ _ _ Hsel Hp), Hov.
  rewrite bool_decide_eq_true_2 by done.
  unfold group_table, dict_getitem at 1. rewrite Hkeys. cbn [bind].
  rewrite Htable. cbn [bind]. rewrite getitem_name. cbn [bind].
  by destruct (name_is_head _ _ _ _ Hp) as [-> _].
Qed.

Lemma group_tab_witness :
  exists table : list (string * value),
    render_tabs plain_parse_qs plain_unquote sample_df (Some "physique")
      (Some "?player=Bo") = Ok (GroupTable (VStr "Bo") "Physique" table) /\
    table.*2 = [VInt 40; VNaN; VStr "—"].
Proof.
  destruct (group_tab plain_parse_qs plain_unquote sample_df "physique"
              (Some "?player=Bo") "Bo" (normalize_row bo) []
              sample_selected_Bo sample_name_is_Bo)
    as (keys & table & Hkeys & Hrender & Hvals & _).
  - unfold group_tabs. rewrite !elem_of_cons. auto 10.
  - exists table. split; [exact Hrender|].
    rewrite Hvals.
    assert (Hk : keys = ["speed"; "stamina"; "tonicity"]).
    { assert (H : GROUPS !! capitalize "physique" = Some ["speed"; "stamina"; "tonicity"])
        by (vm_compute; reflexivity).
      rewrite H in Hkeys. by injection Hkeys. }
    rewrite Hk. vm_compute. reflexivity.
Defined.

(** X7: the overview of a player of the store needs the height and the
    weight columns: when no record has a height the tab raises
    [KeyError] on "height", when records have a height but none a weight
    it raises [KeyError] on "weight", and otherwise it is the overview
    with the six radar values in the order of [radar_attrs], each under its
    label. *)
Theorem overview_tab
    (parse_qs : string -> gmap string (list string))
    (unquote_plus : string -> string) (df : DataFrame)
    (search : option string) (n : string) (p : Player) (l : list Player) :
  truthy (selected_player parse_qs unquote_plus search) = Some n ->
  name_is n df = p :: l ->
  render_tabs parse_qs unquote_plus df (Some "overview") search =
  if has_column df "height" then
    if has_column df "weight" then
      Ok (Overview (VStr n)
            {| play_style := opt_cell (Row.style p);
               dominant_hand := opt_cell (Row.hand p);
               height := cell p "height"; weight := cell p "weight" |}
            (zip radar_labels ((fun a => get df p a (VInt 0)) <$> radar_attrs)))
    else Raise (KeyError "weight")
  else Raise (KeyError "height").
Proof.
  intros Hsel Hp.
  rewrite (render_tabs_found _ _ _ _ _ _ _ _ Hsel Hp). cbn [String.eqb Ascii.eqb Bool.eqb].
  unfold overview. rewrite radar_labels_lookup. cbn [bind].
  rewrite getitem_name. cbn [bind].
  change (getitem df p "style") with (Ok (opt_cell (Row.style p))).
  change (getitem df p "hand") with (Ok (opt_cell (Row.hand p))). cbn [bind].
  unfold getitem.
  destruct (has_column df "height"); [|done]. cbn [bind].
  destruct (has_column df "weight"); [|done]. cbn [bind].
  by destruct (name_is_head _ _ _ _ Hp) as [-> _].
Qed.

Lemma overview_tab_witness :
  render_tabs plain_parse_qs plain_unquote (load [ana_again]) (Some "overview")
    (Some "?player=Ana") = Raise (KeyError "height").
Proof.
  rewrite (overview_tab plain_parse_qs plain_unquote (load [ana_again])
             (Some "?player=Ana") "Ana" (normalize_row ana_again) []).
  - vm_compute. reflexivity.
  - reflexivity.
  - vm_compute. reflexivity.
Defined.

(** ** The comparison, beyond the exchange of the players *)

Lemma compare_players_found (df : DataFrame) (a b : option string)
    (a' b' : string) (p1 p2 : Player) (l1 l2 : list Player) :
  truthy a = Some a' -> truthy b = Some b' ->
  name_is a' df = p1 :: l1 -> name_is b' df = p2 :: l2 ->
  compare_players df a b = Ok (Compared (comparison_of df a' b' p1 p2)).
Proof.
  intros Ha Hb H1 H2. unfold compare_players. rewrite Ha, Hb, H1, H2.
  cbn [iloc0 bind]. rewrite !polar_frame_eq. cbn [bind].
  rewrite (table_rows_eq (fun k => get df p1 k (VStr "—"))). reflexivity.
Qed.

Lemma compare_players_missing (df : DataFrame) (a b : option string)
    (a' b' : string) :
  truthy a = Some a' -> truthy b = Some b' ->
  name_is a' df = [] \/ name_is b' df = [] ->
  compare_players df a b = Raise IndexError.
Proof.
  intros Ha Hb H. unfold compare_players. rewrite Ha, Hb.
  destruct (name_is a' df) as [|p1 l1]; [reflexivity|].
  destruct H as [H|H]; [discriminate|]. by rewrite H.
Qed.

Lemma compare_players_Ok_inv (df : DataFrame) (a b : option string) (c : Comparison) :
  compare_players df a b = Ok (Compared c) ->
  exists a' b' p1 p2 l1 l2,
    truthy a = Some a' /\ truthy b = Some b' /\
    name_is a' df = p1 :: l1 /\ name_is b' df = p2 :: l2 /\
    c = comparison_of df a' b' p1 p2.
Proof.
  intros Hc.
  destruct (truthy a) as [a'|] eqn:Ha; [|unfold compare_players in Hc; by rewrite Ha in Hc].
  destruct (truthy b) as [b'|] eqn:Hb;
    [|unfold compare_players in Hc; by rewrite Ha, Hb in Hc].
  destruct (name_is a' df) as [|p1 l1] eqn:H1.
  { rewrite (compare_players_missing df a b a' b') in Hc by auto. discriminate. }
  destruct (name_is b' df) as [|p2 l2] eqn:H2.
  { rewrite (compare_players_missing df a b a' b') in Hc by auto. discriminate. }
  rewrite (compare_players_found df a b a' b' p1 p2 l1 l2) in Hc by done.
  injection Hc as <-. by exists a', b', p1, p2, l1, l2.
Qed.

(** X8: with both slots filled the comparison raises [IndexError] when
    one of the two names has no row in the store, and otherwise it is
    produced: its header names the two players in the order given, the
    charted frame has twelve rows and the table six. *)
Theorem compare_players_outcome (df : DataFrame) (a b : option string)
    (a' b' : string) :
  truthy a = Some a' -> truthy b = Some b' ->
  (a' ∉ name <$> rows df \/ b' ∉ name <$> rows df ->
   compare_players df a b = Raise IndexError) /\
  (a' ∈ name <$> rows df -> b' ∈ name <$> rows df ->
   exists c : Comparison,
     compare_players df a b = Ok (Compared c) /\
     header c = (a', b') /\
     length (comp_df c) = 12%nat /\ length (table_rows c) = 6%nat).
Proof.
  intros Ha Hb. split.
  - intros H. apply (compare_players_missing df a b a' b'); [done..|].
    destruct H as [H|H]; [left|right]; by apply name_is_nil.
  - intros Hina Hinb.
    destruct (name_is_cons df a' Hina) as (p1 & l1 & H1).
    destruct (name_is_cons df b' Hinb) as (p2 & l2 & H2).
    exists (comparison_of df a' b' p1 p2).
    split; [by apply (compare_players_found df a b a' b' p1 p2 l1 l2)|].
    repeat split.
Qed.

Lemma compare_players_outcome_witness :
  compare_players sample_df (Some "Bo") (Some "Cy") = Raise IndexError /\
  exists c : Comparison,
    compare_players sample_df (Some "Bo") (Some "Ana") = Ok (Compared c) /\
    header c = ("Bo", "Ana").
Proof.
  split.
  - apply (compare_players_outcome sample_df (Some "Bo") (Some "Cy") "Bo" "Cy");
      [reflexivity..|].
    right. rewrite sample_df_names, !not_elem_of_cons.
    repeat split; try discriminate. apply not_elem_of_nil.
  - destruct (compare_players_outcome sample_df (Some "Bo") (Some "Ana") "Bo" "Ana"
                eq_refl eq_refl) as [_ H].
    destruct H as (c & Hc & Hh & _).
    + rewrite sample_df_names, !elem_of_cons. auto.
    + rewrite sample_df_names, !elem_of_cons. auto.
    + exists c. split; assumption.
Defined.

Lemma truthy_Some (o : option string) (n : string) :
  truthy o = Some n -> o = Some n /\ n <> "".
Proof.
  destruct o as [s|]; [|discriminate]. simpl.
  destruct (String.eqb_spec s ""); [discriminate|]. by intros [= <-].
Qed.

Lemma truthy_nonempty (n : string) : n <> "" -> truthy (Some n) = Some n.
Proof. intros Hn. simpl. by destruct (String.eqb_spec n ""). Qed.

(** X9: the Compare tab of a player of the store offers the names of the
    store in both drop-downs, with the player preselected in the first;
    the preselected name is one of the options, and comparing it with any
    option other than the empty text produces a comparison: no choice the
    form offers raises. *)
Theorem compare_tab_options
    (parse_qs : string -> gmap string (list string))
    (unquote_plus : string -> string) (df : DataFrame)
    (search : option string) (n : string) (p : Player) (l : list Player) :
  truthy (selected_player parse_qs unquote_plus search) = Some n ->
  name_is n df = p :: l ->
  render_tabs parse_qs unquote_plus df (Some "compare") search
    = Ok (CompareForm (name <$> rows df) (VStr n)) /\
  n ∈ name <$> rows df /\
  forall b : string, b ∈ name <$> rows df -> b <> "" ->
    exists c : Comparison,
      compare_players df (Some n) (Some b) = Ok (Compared c) /\
      header c = (n, b).
Proof.
  intros Hsel Hp.
  destruct (name_is_head _ _ _ _ Hp) as [Hname Hin].
  destruct (truthy_Some _ _ Hsel) as [_ Hn].
  split; [|split].
  - rewrite (render_tabs_found _ _ _ _ _ _ _ _ Hsel Hp). cbn [String.eqb Ascii.eqb Bool.eqb].
    change (bool_decide ("compare" ∈ group_tabs)) with false. cbn iota.
    unfold compare_form. rewrite getitem_name. cbn [bind]. by rewrite Hname.
  - rewrite <- Hname. apply list_elem_of_fmap. eauto.
  - intros b Hb Hbne. destruct (name_is_cons df b Hb) as (p2 & l2 & H2).
    exists (comparison_of df n b p p2). split; [|done].
    apply (compare_players_found df _ _ n b p p2 l l2); try done;
      by apply truthy_nonempty.
Qed.

Lemma compare_tab_options_witness :
  render_tabs plain_parse_qs plain_unquote sample_df (Some "compare")
    (Some "?player=Bo") = Ok (CompareForm (name <$> rows sample_df) (VStr "Bo")).
Proof.
  apply (compare_tab_options plain_parse_qs plain_unquote sample_df
           (Some "?player=Bo") "Bo" (normalize_row bo) []
           sample_selected_Bo sample_name_is_Bo).
Defined.

(** X10: in a comparison the table repeats, attribute by attribute, the
    value charted for each player when the store has the column; for a
    column the store lacks the chart has 0 and the table has the dash. *)
Theorem compare_chart_and_table (df : DataFrame) (a b : option string)
    (c : Comparison) :
  compare_players df a b = Ok (Compared c) ->
  Forall2 (fun k rt =>
             Attribute rt.1 = rt.2.1.1 /\
             if has_column df k then Value rt.1 = rt.2.1.2
             else Value rt.1 = VInt 0 /\ rt.2.1.2 = VStr "—")
          radar_attrs (zip (df1 c) (table_rows c)) /\
  Forall2 (fun k rt =>
             Attribute rt.1 = rt.2.1.1 /\
             if has_column df k then Value rt.1 = rt.2.2
             else Value rt.1 = VInt 0 /\ rt.2.2 = VStr "—")
          radar_attrs (zip (df2 c) (table_rows c)).
Proof.
  intros Hc.
  destruct (compare_players_Ok_inv df a b c Hc)
    as (a' & b' & p1 & p2 & l1 & l2 & _ & _ & _ & _ & ->).
  split; cbn [comparison_of df1 df2 table_rows radar_labels radar_attrs zip_with zip];
    repeat (apply Forall2_cons; split;
            [split; [reflexivity|]; unfold get; cbn [fst snd Value];
             destruct (has_column df _); [reflexivity|split; reflexivity]|]);
    apply Forall2_nil_2.
Qed.

Lemma compare_chart_and_table_witness :
  exists c : Comparison,
    compare_players sample_df (Some "Ana") (Some "Bo") = Ok (Compared c) /\
    Forall2 (fun k rt =>
               Attribute rt.1 = rt.2.1.1 /\
               if has_column sample_df k then Value rt.1 = rt.2.1.2
               else Value rt.1 = VInt 0 /\ rt.2.1.2 = VStr "—")
            radar_attrs (zip (df1 c) (table_rows c)).
Proof.
  eexists. split; [vm_compute; reflexivity|].
  refine (proj1 (compare_chart_and_table sample_df (Some "Ana") (Some "Bo") _ _)).
  vm_compute. reflexivity.
Defined.

(** ** The filter, beyond the conjunction *)

(** X11: when no record of the data set has a speed, every minimum speed
    other than 0 makes the player list raise, whatever the other
    criteria: [re.error] when the search text is present and does not
    compile (line 196 comes first), [KeyError] on "speed" otherwise; in no
    case is a list returned. *)
Theorem speed_filter_without_speed (re : Re.engine) (data : list Player)
    (search style hand : option string) (m : Z) :
  m <> 0 ->
  (forall q, q ∈ data -> attrs q !! "speed" = None) ->
  let raised :=
    match truthy search with
    | Some pat =>
        match re pat with
        | Some _ => KeyError "speed"
        | None => ReError
        end
    | None => KeyError "speed"
    end in
  filter_players re (load data) search style hand (Some m) = Raise raised /\
  update_player_list re (load data) search style hand (Some m) = Raise raised.
Proof.
  intros Hm Hnone raised.
  assert (Hc : has_column (load data) "speed" = false).
  { destruct (has_column (load data) "speed") eqn:Hc; [|done].
    apply has_column_load in Hc as (q & Hq & [v Hv]); [|by apply not_fixed_column].
    by rewrite (Hnone q Hq) in Hv. }
  assert (Ht : truthy_num (Some m) = Some m).
  { cbn [truthy_num]. by destruct (Z.eqb_spec m 0). }
  assert (Hf : filter_players re (load data) search style hand (Some m)
               = Raise raised).
  { subst raised. destruct (truthy search) as [pat|] eqn:Hs.
    - destruct (re pat) as [found|] eqn:Hre.
      + apply (filter_players_no_speed _ _ _ _ _ _ m); [|done|done].
        unfold search_compiles. rewrite Hs, Hre. by eexists.
      + by apply (name_stage_error _ _ _ _ _ _ pat).
    - apply (filter_players_no_speed _ _ _ _ _ _ m); [|done|done].
      unfold search_compiles. by rewrite Hs. }
  split; [done|]. unfold update_player_list. by rewrite Hf.
Qed.

Lemma speed_filter_without_speed_witness :
  update_player_list Re.sample_engine
    (load [ {| name := "Cy"; style := None; hand := None; attrs := ∅ |} ])
    (Some "(") None None (Some 10) = Raise ReError /\
  update_player_list Re.sample_engine
    (load [ {| name := "Cy"; style := None; hand := None; attrs := ∅ |} ])
    (Some "c") None None (Some 10) = Raise (KeyError "speed").
Proof.
  split.
  - apply (speed_filter_without_speed Re.sample_engine
             [ {| name := "Cy"; style := None; hand := None; attrs := ∅ |} ]
             (Some "(") None None 10); [discriminate|].
    intros q Hq. apply list_elem_of_singleton in Hq as ->. reflexivity.
  - apply (speed_filter_without_speed Re.sample_engine
             [ {| name := "Cy"; style := None; hand := None; attrs := ∅ |} ]
             (Some "c") None None 10); [discriminate|].
    intros q Hq. apply list_elem_of_singleton in Hq as ->. reflexivity.
Defined.

Lemma elem_of_sort_values (p : Player) (l : list Player) :
  p ∈ sort_values l <-> p ∈ l.
Proof. unfold sort_values. by rewrite merge_sort_Permutation. Qed.

(** X12: between 0 and any larger minimum speed the list only shrinks:
    for [0 <= m1 <= m2] every row listed at [m2] is listed at [m1].  (The
    bound 0 matters: 0 lists the rows without a speed, a negative minimum
    does not.) *)
Theorem min_speed_monotone (re : Re.engine) (df : DataFrame)
    (search style hand : option string) (m1 m2 : Z) :
  search_compiles re search ->
  has_column df "speed" = true ->
  0 <= m1 <= m2 ->
  exists out1 out2 : list Player,
    filter_players re df search style hand (Some m1) = Ok out1 /\
    filter_players re df search style hand (Some m2) = Ok out2 /\
    forall p, p ∈ out2 -> p ∈ out1.
Proof.
  intros Hs Hc Hm.
  assert (Hr : forall m, speed_readable df (Some m)).
  { intros m. unfold speed_readable. by destruct (truthy_num (Some m)). }
  eexists _, _. split; [by apply filter_players_eq|].
  split; [by apply filter_players_eq|].
  intros p. rewrite !elem_of_sort_values, !list_elem_of_filter.
  intros [(Hn & Hst & Hh & Hsp) Hin]. split; [|done].
  repeat split; try done. unfold speed_matches in *.
  destruct Hsp as [->|Hsp]; [left; lia|].
  destruct (decide (m1 = 0)); [by left|right].
  unfold speed_ge in *. destruct (attrs p !! "speed"); [lia|done].
Qed.

Lemma min_speed_monotone_witness :
  exists out1 out2 : list Player,
    filter_players Re.sample_engine sample_df None None None (Some 0) = Ok out1 /\
    filter_players Re.sample_engine sample_df None None None (Some 50) = Ok out2 /\
    forall p, p ∈ out2 -> p ∈ out1.
Proof.
  apply min_speed_monotone; [exact I|reflexivity|lia].
Defined.

(** A row without a speed is listed without a minimum speed and is not
    listed with a negative one. *)
Lemma negative_min_speed_drops_rows :
  let cy := {| name := "Cy"; style := None; hand := None;
               attrs := {[ "height" := 170 ]} |} in
  let df := {| columns := {[ "speed"; "height" ]}; rows := [cy] |} in
  filter_players Re.sample_engine df None None None (Some 0) = Ok [cy] /\
  filter_players Re.sample_engine df None None None (Some (-1)) = Ok [].
Proof. split; vm_compute; reflexivity. Qed.

Lemma to_lower_facts (c : ascii) :
  Re.is_ascii_char (to_lower c) = Re.is_ascii_char c /\
  Ascii.eqb (to_lower c) "." = Ascii.eqb c "." /\
  Ascii.eqb (to_lower c) "{" = Ascii.eqb c "{" /\
  Ascii.eqb (to_lower c) "}" = Ascii.eqb c "}" /\
  Ascii.eqb (to_lower c) "," = Ascii.eqb c "," /\
  is_digit (to_lower c) = is_digit c /\
  Re.is_special (to_lower c) = Re.is_special c /\
  to_lower (to_lower c) = to_lower c.
Proof.
  destruct c as [[] [] [] [] [] [] [] []]; vm_compute; repeat split.
Qed.

Lemma lower_skip_digits (s : string) :
  Re.skip_digits (lower s) = lower (Re.skip_digits s).
Proof.
  induction s as [|c s IH]; [done|].
  rewrite lower_cons. cbn [Re.skip_digits].
  destruct (to_lower_facts c) as (_ & _ & _ & _ & _ & -> & _).
  destruct (is_digit c); [exact IH|by rewrite lower_cons].
Qed.

Lemma lower_starts_with (d : ascii) (s : string) :
  d = "}"%char \/ d = ","%char ->
  Re.starts_with d (lower s) = Re.starts_with d s.
Proof.
  intros Hd. destruct s as [|c s]; [done|].
  rewrite lower_cons. cbn [Re.starts_with].
  destruct (to_lower_facts c) as (_ & _ & _ & H1 & H2 & _).
  by destruct Hd as [-> | ->].
Qed.

Lemma lower_tail (s : string) : Re.tail (lower s) = lower (Re.tail s).
Proof. by destruct s. Qed.

Lemma repeat_shape_lower (s : string) :
  Re.repeat_shape (lower s) = Re.repeat_shape s.
Proof.
  unfold Re.repeat_shape.
  rewrite lower_skip_digits, !lower_starts_with, lower_tail, lower_skip_digits,
    lower_starts_with by auto.
  done.
Qed.

Lemma compile_lower (pat : string) :
  Re.compile (lower pat) =
  (fun re : list Re.atom => lower_atom <$> re) <$> Re.compile pat.
Proof.
  induction pat as [|c pat IH]; [done|].
  rewrite lower_cons. cbn [Re.compile].
  destruct (to_lower_facts c) as (-> & -> & -> & _ & _ & _ & -> & _).
  rewrite repeat_shape_lower.
  destruct (negb (Re.is_ascii_char c)); [done|].
  destruct (Ascii.eqb c ".").
  { rewrite IH. by destruct (Re.compile pat). }
  destruct (Ascii.eqb c "{").
  { destruct (Re.repeat_shape pat); [done|].
    rewrite IH. by destruct (Re.compile pat). }
  destruct (Re.is_special c); [done|].
  rewrite IH. by destruct (Re.compile pat).
Qed.

Lemma atom_matches_lower (a : Re.atom) (d : N) :
  Re.atom_matches (lower_atom a) d = Re.atom_matches a d.
Proof.
  destruct a as [c|]; [|done]. cbn [lower_atom Re.atom_matches].
  by destruct (to_lower_facts c) as (_ & _ & _ & _ & _ & _ & _ & ->).
Qed.

Lemma match_here_lower (re : list Re.atom) (s : list N) :
  Re.match_here (lower_atom <$> re) s = Re.match_here re s.
Proof.
  revert s. induction re as [|a re IH]; intros s; [done|].
  rewrite fmap_cons. destruct s as [|d s]; [done|].
  cbn [Re.match_here]. by rewrite atom_matches_lower, IH.
Qed.

Lemma search_lower (re : list Re.atom) (s : list N) :
  Re.search (lower_atom <$> re) s = Re.search re s.
Proof.
  induction s as [|d s IH]; cbn [Re.search]; rewrite match_here_lower; [done|].
  by rewrite IH.
Qed.

Lemma str_contains_lower (re : Re.engine) (pat : string) (l : list Player) :
  Re.agrees re -> is_Some (Re.compile pat) ->
  str_contains re (lower pat) l = str_contains re pat l.
Proof.
  intros [Hknown _] [atoms Hc].
  assert (Hl : Re.compile (lower pat) = Some (lower_atom <$> atoms))
    by (by rewrite compile_lower, Hc).
  destruct (Hknown _ _ Hc) as (f & Hf & Hfs).
  destruct (Hknown _ _ Hl) as (g & Hg & Hgs).
  unfold str_contains. rewrite Hf, Hg. f_equal.
  apply list_fmap_ext. intros _ p _. by rewrite Hfs, Hgs, search_lower.
Qed.

(** X13: the case of the letters of the search text does not matter: a
    pattern of the fragment and the same pattern in lower case give the
    same player list, whatever the other criteria. *)
Theorem search_text_case (re : Re.engine) (df : DataFrame) (pat : string)
    (style hand : option string) (min_speed : option Z) :
  Re.agrees re ->
  is_Some (Re.compile pat) ->
  filter_players re df (Some (lower pat)) style hand min_speed =
  filter_players re df (Some pat) style hand min_speed /\
  update_player_list re df (Some (lower pat)) style hand min_speed =
  update_player_list re df (Some pat) style hand min_speed.
Proof.
  intros Hre Hpat.
  assert (Hf : filter_players re df (Some (lower pat)) style hand min_speed =
               filter_players re df (Some pat) style hand min_speed).
  { unfold filter_players. destruct pat as [|c pat]; [done|].
    rewrite lower_cons. cbn [truthy String.eqb].
    rewrite <- lower_cons. by rewrite str_contains_lower. }
  split; [done|]. unfold update_player_list. by rewrite Hf.
Qed.

Lemma search_text_case_witness :
  update_player_list Re.sample_engine sample_df (Some (lower "AN.")) None None None =
  update_player_list Re.sample_engine sample_df (Some "AN.") None None None.
Proof.
  apply (search_text_case Re.sample_engine sample_df "AN." None None None).
  - exact sample_engine_agrees.
  - by eexists.
Defined.

(** X14: with a search text that compiles and a readable speed column
    the callback returns a player list: the "no players" message exactly
    when no row of the store satisfies the constraints, and otherwise
    links that are not empty, name exactly the rows that satisfy the
    constraints, are in ascending order, and are pairwise distinct when the
    names of the store are. *)
Theorem player_list_links (re : Re.engine) (df : DataFrame)
    (search style hand : option string) (min_speed : option Z) :
  search_compiles re search ->
  speed_readable df min_speed ->
  (exists v, update_player_list re df search style hand min_speed = Ok v) /\
  (update_player_list re df search style hand min_speed = Ok NoPlayersFound <->
   forall p, p ∈ rows df -> ~ keeps re search style hand min_speed p) /\
  (forall names : list string,
     update_player_list re df search style hand min_speed = Ok (PlayerLinks names) ->
     names <> [] /\
     StronglySorted str_le names /\
     (NoDup (name <$> rows df) -> NoDup names) /\
     forall n, n ∈ names <->
               exists p, p ∈ rows df /\ keeps re search style hand min_speed p /\
                         name p = n).
Proof.
  intros Hs Hm. unfold update_player_list.
  rewrite (filter_players_eq _ _ _ _ _ _ Hs Hm). unfold rmap; cbn [bind].
  set (kept := filter (keeps re search style hand min_speed) (rows df)).
  assert (Hperm : sort_values kept ≡ₚ kept) by apply merge_sort_Permutation.
  split; [by eexists|]. split.
  - split.
    + intros Hv p Hin Hk.
      assert (Hp : p ∈ sort_values kept)
        by (apply elem_of_sort_values, list_elem_of_filter; done).
      destruct (sort_values kept); [inversion Hp|discriminate].
    + intros Hnone.
      destruct (sort_values kept) as [|p out] eqn:Hout; [done|]. exfalso.
      assert (Hp : p ∈ sort_values kept) by (rewrite Hout; left).
      apply elem_of_sort_values, list_elem_of_filter in Hp as [Hk Hin].
      by apply (Hnone p).
  - intros names Hv.
    pose proof (sort_values_names_sorted kept) as Hsorted.
    assert (Hmem : forall q, q ∈ sort_values kept <->
                             keeps re search style hand min_speed q /\ q ∈ rows df).
    { intros q. unfold kept. by rewrite elem_of_sort_values, list_elem_of_filter. }
    assert (Hnd : NoDup (name <$> rows df) -> NoDup (name <$> sort_values kept)).
    { intros Hnd. rewrite Hperm.
      eapply sublist_NoDup; [exact Hnd|]. apply fmap_sublist, sublist_filter. }
    assert (Hlinks : forall out : list Player,
              match out with
              | [] => NoPlayersFound
              | _ :: _ => PlayerLinks (name <$> out)
              end = PlayerLinks names -> names = name <$> out /\ out <> []).
    { intros [|q o] H; [discriminate|]. by injection H as <-. }
    injection Hv as Hv. apply Hlinks in Hv as [-> Hne].
    split; [by destruct (sort_values kept)|].
    split; [exact Hsorted|]. split; [exact Hnd|].
    intros n. rewrite list_elem_of_fmap. split.
    + intros (q & -> & Hq). apply Hmem in Hq. exists q. tauto.
    + intros (q & Hin & Hk & <-). exists q. split; [done|]. by apply Hmem.
Qed.

Lemma player_list_links_witness :
  exists v, update_player_list Re.sample_engine sample_df (Some "a") None None
              (Some 50) = Ok v.
Proof.
  apply (player_list_links Re.sample_engine sample_df (Some "a") None None (Some 50)).
  - by eexists.
  - reflexivity.
Defined.

(** ** The options of the drop-downs *)

Lemma unique_elem (seen : gset string) (l : list string) (s : string) :
  s ∈ unique seen l <-> s ∈ l /\ s ∉ seen.
Proof.
  revert seen. induction l as [|x l IH]; intros seen; simpl.
  - rewrite elem_of_nil. tauto.
  - case_bool_decide as Hx.
    + rewrite IH, elem_of_cons. split; [tauto|].
      intros [[-> | ?] ?]; [done|tauto].
    + rewrite !elem_of_cons, IH, elem_of_union, elem_of_singleton. split.
      * intros [-> | [? ?]]; [tauto|]. split; [tauto|]. tauto.
      * intros [[-> | ?] ?]; [tauto|].
        destruct (decide (s = x)); [tauto|right]. tauto.
Qed.

Lemma unique_NoDup (seen : gset string) (l : list string) :
  NoDup (unique seen l).
Proof.
  revert seen. induction l as [|x l IH]; intros seen; simpl; [constructor|].
  case_bool_decide; [apply IH|]. constructor; [|apply IH].
  rewrite unique_elem, elem_of_union, elem_of_singleton. tauto.
Qed.

Lemma column_options_spec (col : Player -> option string) (df : DataFrame) :
  StronglySorted str_le (column_options col df) /\
  NoDup (column_options col df) /\
  forall s, s ∈ column_options col df <-> exists p, p ∈ rows df /\ col p = Some s.
Proof.
  unfold column_options, sorted.
  split; [apply StronglySorted_merge_sort; apply _|].
  split; [rewrite merge_sort_Permutation; apply unique_NoDup|].
  intros s. rewrite merge_sort_Permutation, unique_elem.
  unfold dropna. rewrite list_elem_of_omap. split.
  - intros [(c & Hc & ->) _]. apply list_elem_of_fmap in Hc as (p & -> & Hp). eauto.
  - intros (p & Hp & Hs). split; [|apply not_elem_of_empty].
    exists (col p). split; [|done]. apply list_elem_of_fmap; eauto.
Qed.

Lemma filter_players_unconstrained_search (re : Re.engine) (df : DataFrame)
    (style hand : option string) :
  filter_players re df None style hand None =
  Ok (sort_values (filter (keeps re None style hand None) (rows df))).
Proof. by apply filter_players_eq. Qed.

(** X15: the options of the style drop-down are the styles that occur in
    the store, each once, in ascending order; and choosing any of them
    never gives an empty player list. *)
Theorem style_options_selectable (re : Re.engine) (df : DataFrame) :
  StronglySorted str_le (style_options df) /\
  NoDup (style_options df) /\
  (forall s, s ∈ style_options df <-> exists p, p ∈ rows df /\ Row.style p = Some s) /\
  (forall s, s ∈ style_options df ->
     exists names, update_player_list re df None (Some s) None None
                   = Ok (PlayerLinks names) /\ names <> []).
Proof.
  destruct (column_options_spec Row.style df) as (Hsorted & Hnd & Hmem).
  split; [done|]. split; [done|]. split; [done|].
  intros s (p & Hp & Hs)%Hmem.
  unfold update_player_list. rewrite filter_players_unconstrained_search.
  unfold rmap; cbn [bind].
  assert (Hin : p ∈ sort_values (filter (keeps re None (Some s) None None) (rows df))).
  { apply elem_of_sort_values, list_elem_of_filter. split; [|done].
    repeat split. unfold style_matches.
    destruct (truthy (Some s)) as [s'|] eqn:Ht; [|done].
    apply truthy_Some in Ht as [[= <-] _]. done. }
  destruct (sort_values _) as [|q out]; [inversion Hin|].
  eexists. split; [reflexivity|discriminate].
Qed.

Lemma style_options_selectable_witness :
  exists names, update_player_list Re.sample_engine sample_df None (Some "Defensive")
                  None None
                = Ok (PlayerLinks names) /\ names <> [].
Proof.
  apply (proj2 (proj2 (proj2 (style_options_selectable Re.sample_engine sample_df)))).
  apply (proj1 (proj2 (proj2 (style_options_selectable Re.sample_engine sample_df)))).
  exists (normalize_row bo). split; [|reflexivity].
  assert (H : rows sample_df = [normalize_row bo; normalize_row ana])
    by (vm_compute; reflexivity).
  rewrite H. left.
Defined.

Lemma normalize_hand_listed (h : option string) :
  (forall x, h = Some x -> x ∈ dom HAND_REPLACE \/ x = "Left" \/ x = "Right") ->
  normalize_hand h = "Left" \/ normalize_hand h = "Right".
Proof.
  destruct h as [x|]; [|intros _; by left].
  intros H. destruct (H x eq_refl) as [Hx|[-> | ->]]; [|by left|by right].
  apply elem_of_dom in Hx as [v Hv].
  unfold normalize_hand, replace, fillna. rewrite Hv.
  by apply (HAND_REPLACE_value_side x).
Qed.

Lemma load_row_origin (data : list Player) (r : Player) :
  r ∈ rows (load data) -> exists p, p ∈ data /\ r = normalize_row p.
Proof.
  unfold load; cbn [rows drop_duplicates DataFrame_of].
  intros (p & -> & Hp)%list_elem_of_fmap.
  apply drop_seen_elem in Hp as [Hp _]. eauto.
Qed.

(** X16: on the loaded store the hand drop-down has an option as soon as
    the data set has a record; choosing any option never gives an empty
    player list; and when every hand of the data set is missing, listed in
    the replacement table, or already "Left" or "Right", the only options
    are "Left" and "Right". *)
Theorem hand_options_of_store (re : Re.engine) (data : list Player) :
  (data <> [] -> hand_options (load data) <> []) /\
  (forall s, s ∈ hand_options (load data) ->
     exists names, update_player_list re (load data) None None (Some s) None
                   = Ok (PlayerLinks names) /\ names <> []) /\
  ((forall p x, p ∈ data -> Row.hand p = Some x ->
                x ∈ dom HAND_REPLACE \/ x = "Left" \/ x = "Right") ->
   forall s, s ∈ hand_options (load data) -> s = "Left" \/ s = "Right").
Proof.
  destruct (column_options_spec Row.hand (load data)) as (_ & _ & Hmem).
  fold (hand_options (load data)) in Hmem.
  split; [|split].
  - destruct data as [|p data]; [done|]. intros _ Hnil.
    assert (Hin : normalize_hand (Row.hand p) ∈ hand_options (load (p :: data))).
    2: { rewrite Hnil in Hin. inversion Hin. }
    apply Hmem. exists (normalize_row p). split; [|done].
    unfold load; cbn [rows drop_duplicates DataFrame_of drop_seen].
    rewrite bool_decide_eq_false_2 by apply not_elem_of_empty.
    rewrite fmap_cons. left.
  - intros s (p & Hp & Hs)%Hmem.
    unfold update_player_list. rewrite filter_players_unconstrained_search.
    unfold rmap; cbn [bind].
    assert (Hin : p ∈ sort_values (filter (keeps re None None (Some s) None)
                                          (rows (load data)))).
    { apply elem_of_sort_values, list_elem_of_filter. split; [|done].
      repeat split. unfold hand_matches.
      destruct (truthy (Some s)) as [s'|] eqn:Ht; [|done].
      apply truthy_Some in Ht as [[= <-] _]. done. }
    destruct (sort_values _) as [|q out]; [inversion Hin|].
    eexists. split; [reflexivity|discriminate].
  - intros Hlisted s (r & Hr & Hs)%Hmem.
    apply load_row_origin in Hr as (p & Hp & ->).
    cbn [normalize_row Row.hand] in Hs. injection Hs as <-.
    apply normalize_hand_listed. intros x Hx. by apply (Hlisted p).
Qed.

Lemma hand_options_of_store_witness :
  hand_options (load sample_data) <> [].
Proof.
  apply (proj1 (hand_options_of_store Re.sample_engine sample_data)). discriminate.
Defined.

(** ** From the URL to the view *)

(** X17: question marks in front of the query do not count: the view for
    a query and for the same query behind one more question mark is the
    same, whatever the decoder, the store and the tab. *)
Theorem render_tabs_question_mark
    (parse_qs : string -> gmap string (list string))
    (unquote_plus : string -> string) (df : DataFrame)
    (tab : option string) (s : string) :
  s <> "" ->
  render_tabs parse_qs unquote_plus df tab (Some (String "?" s)) =
  render_tabs parse_qs unquote_plus df tab (Some s).
Proof.
  intros Hs. unfold render_tabs, selected_player.
  rewrite (truthy_nonempty s Hs).
  by rewrite (truthy_nonempty (String "?" s)).
Qed.

Lemma render_tabs_question_mark_witness :
  render_tabs plain_parse_qs plain_unquote sample_df (Some "serve")
    (Some "??player=Bo") =
  render_tabs plain_parse_qs plain_unquote sample_df (Some "serve")
    (Some "?player=Bo").
Proof.
  apply (render_tabs_question_mark plain_parse_qs plain_unquote sample_df
           (Some "serve") "?player=Bo").
  discriminate.
Defined.

(** ** The order of the list is the code-point order *)

Lemma upper_before_lower (s t : string) :
  starts_lower s -> starts_upper t -> ~ str_le s t.
Proof.
  destruct s as [|c s], t as [|d t]; try done.
  unfold starts_lower, starts_upper, starts_within, str_le, String.leb.
  intros Hc Hd. cbn [String.compare]. unfold Ascii.compare.
  destruct (N.compare_spec (N_of_ascii c) (N_of_ascii d)); [lia|lia|discriminate].
Qed.

(** X19: the order of the player list distinguishes case: in the
    returned list no name beginning with a lower-case letter comes before a
    name beginning with an upper-case letter. *)
Theorem upper_case_names_first (re : Re.engine) (df : DataFrame)
    (search style hand : option string) (min_speed : option Z) :
  search_compiles re search ->
  speed_readable df min_speed ->
  exists out : list Player,
    filter_players re df search style hand min_speed = Ok out /\
    forall (l1 l2 : list Player) (p q : Player),
      out = (l1 ++ p :: l2)%list -> q ∈ l2 ->
      starts_lower (name p) -> ~ starts_upper (name q).
Proof.
  intros Hs Hm. eexists. split; [by apply filter_players_eq|].
  intros l1 l2 p q Hout Hq Hp Hupper.
  pose proof (sort_values_sorted
                (filter (keeps re search style hand min_speed) (rows df))) as Hsorted.
  rewrite Hout in Hsorted.
  apply StronglySorted_app in Hsorted as (_ & _ & Hsorted).
  apply StronglySorted_inv in Hsorted as [_ Hall].
  rewrite Forall_forall in Hall.
  by apply (upper_before_lower (name p) (name q)); [| |apply Hall].
Qed.

Lemma upper_case_names_first_witness :
  exists out : list Player,
    filter_players Re.sample_engine sample_df None None None None = Ok out /\
    forall (l1 l2 : list Player) (p q : Player),
      out = (l1 ++ p :: l2)%list -> q ∈ l2 ->
      starts_lower (name p) -> ~ starts_upper (name q).
Proof.
  apply (upper_case_names_first Re.sample_engine sample_df None None None None);
    exact I.
Defined.

Example code_point_order_sample :
  rmap (fmap name)
    (filter_players Re.sample_engine
       {| columns := ∅;
          rows := [ {| name := "adam"; style := None; hand := None; attrs := ∅ |};
                    {| name := "Zed"; style := None; hand := None; attrs := ∅ |} ] |}
       None None None None)
  = Ok ["Zed"; "adam"].
Proof. vm_compute. reflexivity. Qed.

Lemma talent_to_stars_range_witness :
  exists n : Z, Py.int (VInt (-2)) = Some n /\ n < 0.
Proof.
  apply (proj2 (proj2 (talent_to_stars_range (VInt (-2)))) false). reflexivity.
Defined.
